(** * Activity score summary (zongfe.py): model and verified properties

    The program reads one spreadsheet per activity period ([S1.xlsx],
    [S2.xlsx], ...), merges the scores of every participant into one table
    keyed by student id, and writes the table ranked by total score.

    The embedding follows [process_activity_data] and
    [read_existing_summary] statement by statement.  Python dictionaries are
    finite maps ([gmap]), the participant set is a finite set ([gset]) whose
    enumeration order is left to the library, as Python leaves the iteration
    order of a [set] unspecified.  Exceptions caught by the per-file
    [try]/[except] are the branches that return the state unchanged. *)

From Stdlib Require Import ZArith String Ascii DecimalString.
From stdpp Require Import gmap strings list fin_maps sorting.

Local Open Scope Z_scope.

(** ** Cell values and strings *)

(** The value of a spreadsheet cell as [openpyxl] hands it over: an empty
    cell is [None], a text cell a [str], a numeric cell a number.  Numbers
    are modelled as integers (scores and student ids are whole numbers in
    the sheets this program is written for). *)
Inductive value : Type :=
  | VNone
  | VStr (s : string)
  | VInt (n : Z).

#[global] Instance value_eq_dec : EqDecision value.
Proof. solve_decision. Defined.

#[global] Instance value_inhabited : Inhabited value := populate VNone.

(** Python's [str(v)]. *)
Definition str (v : value) : string :=
  match v with
  | VNone => "None"
  | VStr s => s
  | VInt n => NilZero.string_of_int (Z.to_int n)
  end.

(** Python's [s.replace(old, new)] for a non-empty [old]: occurrences are
    found from left to right and do not overlap.  [skip] counts the
    characters of the current occurrence that are still to be dropped. *)
Fixpoint replace_from (old new : string) (skip : nat) (s : string) : string :=
  match s with
  | EmptyString => EmptyString
  | String c s' =>
      match skip with
      | S k => replace_from old new k s'
      | O =>
          if String.prefix old s
          then new +:+ replace_from old new (String.length old - 1) s'
          else String c (replace_from old new 0 s')
      end
  end.

Definition replace (old new s : string) : string := replace_from old new 0 s.

(** Lines 51-52 (and 133): the period label of a file name. *)
Definition period_key (file : string) : string :=
  "S" +:+ replace ".xlsx" "" (replace "S" "" file).

(** ** Sorting *)

(** A stable insertion sort: [x] is placed before the first element [y]
    with [le x y].  Python's [sorted] and [list.sort] are stable, also
    with [reverse=True]. *)
Section Sort.
Context {A : Type} (le : A → A → bool).

Fixpoint insert_by (x : A) (l : list A) : list A :=
  match l with
  | [] => [x]
  | y :: l' => if le x y then x :: y :: l' else y :: insert_by x l'
  end.

Fixpoint sort_by (l : list A) : list A :=
  match l with
  | [] => []
  | x :: l' => insert_by x (sort_by l')
  end.
End Sort.

(** [sorted(l)] on strings. *)
Definition sorted (l : list string) : list string := sort_by String.leb l.

(** [sorted(set(l))] on strings. *)
Definition sorted_set (l : list string) : list string :=
  sorted (elements (list_to_set l : gset string)).

(** ** Workbooks *)

(** What [load_workbook(file, read_only=True)] gives.  [LoadError]: the call
    raises.  [Loaded rs broken]: the active sheet yields the rows [rs]; when
    [broken] holds, iterating [ws.rows] to the end raises after them. *)
Inductive workbook : Type :=
  | LoadError
  | Loaded (ws_rows : list (list value)) (broken : bool).

(** The column names. *)
Definition COL_NAME : string := "年级专业班级姓名".
Definition COL_PHONE : string := "手机号码".
Definition COL_ID : string := "学号".
Definition COL_TOTAL : string := "总分".
Definition UNKNOWN : string := "未知".

Definition required_columns : list string :=
  [COL_NAME; COL_PHONE; COL_ID; COL_TOTAL].

(** [headers.index(x)]: the first position of [x], [None] for ValueError. *)
Fixpoint index (x : value) (headers : list value) : option nat :=
  match headers with
  | [] => None
  | h :: hs => if decide (h = x) then Some O else S <$> index x hs
  end.

(** [row[i].value]; every use is guarded by the length test on the row. *)
Definition cell (row : list value) (i : nat) : value := row !!! i.

(** [v if v is not None else 0]. *)
Definition or_zero (v : value) : value :=
  match v with
  | VNone => VInt 0
  | _ => v
  end.

Definition max4 (a b c d : nat) : nat := Nat.max (Nat.max (Nat.max a b) c) d.

(** ** The accumulated state *)

(** [{'info': [name, phone], 'scores': {period: score}}] *)
Record student : Type := {
  info : value * value;
  scores : gmap string value
}.

Record state : Type := {
  all_data : gmap string student;
  all_participants : gset string;
  participant_info : gmap string (value * value);
  processed_files : list string
}.

(** ** The period ingestor (lines 49-122) *)

(** [all_data[student_id]['scores'][period_key] = score] *)
Definition set_score (pk : string) (score : value) (d : student) : student :=
  {| info := info d; scores := <[pk := score]> (scores d) |}.

(** The body of the row loop, lines 86-115. *)
Definition ingest_row (pk : string) (name_idx phone_idx id_idx score_idx : nat)
    (st : state) (row : list value) : state :=
  if (length row <=? max4 name_idx phone_idx id_idx score_idx)%nat then st
  else
    let name := cell row name_idx in
    let phone := cell row phone_idx in
    let student_id := str (cell row id_idx) in
    let score := or_zero (cell row score_idx) in
    if decide (student_id = "") then st
    else
      let pinfo :=
        match participant_info st !! student_id with
        | Some _ => participant_info st
        | None => <[student_id := (name, phone)]> (participant_info st)
        end in
      let data :=
        match all_data st !! student_id with
        | Some _ => all_data st
        | None =>
            <[student_id := {| info := (name, phone); scores := ∅ |}]>
              (all_data st)
        end in
      {| all_data := alter (set_score pk score) student_id data;
         all_participants := {[student_id]} ∪ all_participants st;
         participant_info := pinfo;
         processed_files := processed_files st |}.

(** [missing_columns], line 71. *)
Definition missing_columns (headers : list value) : list string :=
  filter (λ col, VStr col ∉ headers) required_columns.

(** The body of the file loop, lines 50-122.  Every exception is raised
    before the first row is folded into the state: [load_workbook],
    [next(ws.rows)] on a sheet without rows, and [list(ws.rows)], which
    reads every row before the row loop starts. *)
Definition ingest_file (fs : string → workbook) (existing_periods : list string)
    (update_mode : bool) (st : state) (file : string) : state :=
  let pk := period_key file in
  if bool_decide (pk ∈ existing_periods) && update_mode then st
  else
    match fs file with
    | LoadError => st
    | Loaded [] _ => st
    | Loaded (headers :: data) broken =>
        match missing_columns headers with
        | _ :: _ => st
        | [] =>
            match index (VStr COL_NAME) headers, index (VStr COL_PHONE) headers,
                  index (VStr COL_ID) headers, index (VStr COL_TOTAL) headers with
            | Some name_idx, Some phone_idx, Some id_idx, Some score_idx =>
                if broken then st
                else
                  let st' :=
                    foldl (ingest_row pk name_idx phone_idx id_idx score_idx)
                      st data in
                  {| all_data := all_data st';
                     all_participants := all_participants st';
                     participant_info := participant_info st';
                     processed_files := processed_files st' ++ [file] |}
            | _, _, _, _ => st
            end
        end
    end.

Definition ingest_files (fs : string → workbook) (existing_periods : list string)
    (update_mode : bool) (st : state) (files : list string) : state :=
  foldl (ingest_file fs existing_periods update_mode) st files.

(** ** The existing-summary loader (lines 192-257) *)

(** Lines 219-222.  [header.startswith('S')] is evaluated for every header,
    so a header that is not a string raises AttributeError ([None] here). *)
Fixpoint period_columns_from (i : nat) (fixed : list nat) (headers : list value)
    : option (list string) :=
  match headers with
  | [] => Some []
  | VStr header :: hs =>
      rest ← period_columns_from (S i) fixed hs;
      Some (if String.prefix "S" header && negb (bool_decide (i ∈ fixed))
            then header :: rest else rest)
  | _ :: _ => None
  end.

(** Lines 246-250, one period column of one row. *)
Definition load_score (headers row : list value) (sc : gmap string value)
    (period : string) : gmap string value :=
  match index (VStr period) headers with
  | Some period_idx =>
      if (period_idx <? length row)%nat
      then <[period := or_zero (cell row period_idx)]> sc
      else sc
  | None => sc
  end.

(** The body of the row loop, lines 228-250.  A second row with the same
    student id replaces the record of the first. *)
Definition load_row (headers : list value) (period_columns : list string)
    (name_idx phone_idx id_idx total_idx : nat)
    (student_data : gmap string student) (row : list value)
    : gmap string student :=
  if (length row <=? max4 name_idx phone_idx id_idx total_idx)%nat
  then student_data
  else
    let name := cell row name_idx in
    let phone := cell row phone_idx in
    let student_id := str (cell row id_idx) in
    if decide (student_id = "") then student_data
    else
      <[student_id :=
          {| info := (name, phone);
             scores := foldl (load_score headers row) ∅ period_columns |}]>
        student_data.

(** [read_existing_summary]: every exception, and a missing column, gives
    the empty result [({}, [])]. *)
Definition read_existing_summary (wb : workbook)
    : gmap string student * list string :=
  match wb with
  | LoadError => (∅, [])
  | Loaded [] _ => (∅, [])
  | Loaded (headers :: data) broken =>
      match index (VStr COL_NAME) headers, index (VStr COL_PHONE) headers,
            index (VStr COL_ID) headers, index (VStr COL_TOTAL) headers with
      | Some name_idx, Some phone_idx, Some id_idx, Some total_idx =>
          match period_columns_from 0
                  [name_idx; phone_idx; id_idx; total_idx] headers with
          | None => (∅, [])
          | Some period_columns =>
              if broken then (∅, [])
              else
                (foldl (load_row headers period_columns
                          name_idx phone_idx id_idx total_idx) ∅ data,
                 period_columns)
          end
      | _, _, _, _ => (∅, [])
      end
  end.

(** ** The summary builder (lines 131-177) *)

(** One row of [result_data]: [[name, phone, student_id, score..., total]].
    The scores are integers: adding any other value to [total_score] raises
    TypeError before the value is appended. *)
Record row_data : Type := {
  r_name : value;
  r_phone : value;
  r_id : string;
  r_scores : list Z;
  r_total : Z
}.

(** Lines 163-166, one period: [acc] is [None] once TypeError was raised. *)
Definition add_period (student_scores : gmap string value)
    (acc : option (list Z * Z)) (period : string) : option (list Z * Z) :=
  '(cells, total_score) ← acc;
  match default (VInt 0) (student_scores !! period) with
  | VInt score => Some (cells ++ [score], total_score + score)
  | _ => None
  end.

(** Lines 155-169. *)
Definition build_row (all_periods : list string) (st : state)
    (student_id : string) : option row_data :=
  let student_scores :=
    match all_data st !! student_id with
    | Some d => scores d
    | None => ∅
    end in
  let student_info :=
    default (VStr UNKNOWN, VStr UNKNOWN) (participant_info st !! student_id) in
  '(cells, total_score) ← foldl (add_period student_scores) (Some ([], 0)) all_periods;
  Some {| r_name := student_info.1; r_phone := student_info.2;
          r_id := student_id; r_scores := cells; r_total := total_score |}.

(** Line 172: [result_data.sort(key=lambda x: x[-1], reverse=True)]. *)
Definition sort_rows (result_data : list row_data) : list row_data :=
  sort_by (λ x y, r_total y <=? r_total x) result_data.

(** The cells written for one row, lines 175-177. *)
Definition row_cells (r : row_data) : list value :=
  [r_name r; r_phone r; VStr (r_id r)] ++ (VInt <$> r_scores r) ++ [VInt (r_total r)].

(** The header row, lines 143-149. *)
Definition header_cells (all_periods : list string) : list value :=
  VStr <$> ([COL_NAME; COL_PHONE; COL_ID] ++ all_periods ++ [COL_TOTAL]).

(** Lines 132-135. *)
Definition all_periods_of (existing_periods : list string) (st : state)
    : list string :=
  sorted_set (existing_periods ++ (period_key <$> processed_files st)).

(** ** The whole run *)

(** How a run ends.  The first three are the early returns of lines 23, 126
    and 129, none of which writes the summary file; [TypeError] is the
    exception raised at line 165 on a score that is not a number, which
    leaves [process_activity_data] before the file is written;
    [Written t] is the table saved to the summary file. *)
Inductive outcome : Type :=
  | NoFiles
  | NothingRead
  | NothingNew
  | TypeError
  | Written (table : list (list value)).

(** Lines 28-32: the summary is read in update mode when the file exists. *)
Definition load_existing (summary : option workbook) (update_mode : bool)
    : gmap string student * list string :=
  match summary with
  | Some wb => if update_mode then read_existing_summary wb else (∅, [])
  | None => (∅, [])
  end.

(** Lines 35-45. *)
Definition initial_state (existing_data : gmap string student) : state :=
  {| all_data := existing_data;
     all_participants := dom existing_data;
     participant_info := info <$> existing_data;
     processed_files := [] |}.

(** The state after the file loop (line 122) of a run. *)
Definition run_state (fs : string → workbook) (files : list string)
    (summary : option workbook) (update_mode : bool) : state :=
  let '(existing_data, existing_periods) := load_existing summary update_mode in
  ingest_files fs existing_periods update_mode (initial_state existing_data) files.

(** [glob_result] is what [glob.glob(file_pattern)] returns; [summary] is the
    summary file, if it exists. *)
Definition process_activity_data (fs : string → workbook)
    (glob_result : list string) (summary : option workbook)
    (update_mode : bool) : outcome :=
  let files := sorted glob_result in
  match files with
  | [] => NoFiles
  | _ :: _ =>
      let '(existing_data, existing_periods) := load_existing summary update_mode in
      let st := ingest_files fs existing_periods update_mode
                  (initial_state existing_data) files in
      match processed_files st with
      | [] => if decide (existing_data = ∅) then NothingRead else NothingNew
      | _ :: _ =>
          let all_periods := all_periods_of existing_periods st in
          match mapM (build_row all_periods st) (elements (all_participants st)) with
          | None => TypeError
          | Some result_data =>
              Written (header_cells all_periods :: (row_cells <$> sort_rows result_data))
          end
      end
  end.

(** The summary file after a run. *)
Definition summary_after (summary : option workbook) (o : outcome)
    : option workbook :=
  match o with
  | Written t => Some (Loaded t false)
  | _ => summary
  end.

(** ** Notions used to state the properties *)

(** [pat] occurs in [s]. *)
Definition occurs (pat s : string) : Prop := ∃ a b, s = a +:+ pat +:+ b.

(** A workbook that opens, has a header row with the four required columns
    and whose rows can all be read. *)
Definition well_formed (wb : workbook) : bool :=
  match wb with
  | Loaded (headers :: _) false => bool_decide (missing_columns headers = [])
  | _ => false
  end.

(** Opening or parsing the workbook raises an exception (lines 61, 66, 85). *)
Definition raises_error (wb : workbook) : Prop :=
  match wb with
  | LoadError => True
  | Loaded [] _ => True
  | Loaded (headers :: _) broken => missing_columns headers = [] ∧ broken = true
  end.

(** Line 55: the file is passed over because its period is known. *)
Definition skipped (existing_periods : list string) (update_mode : bool)
    (file : string) : bool :=
  bool_decide (period_key file ∈ existing_periods) && update_mode.

(** The file is neither passed over nor rejected. *)
Definition consumed (fs : string → workbook) (existing_periods : list string)
    (update_mode : bool) (file : string) : bool :=
  negb (skipped existing_periods update_mode file) && well_formed (fs file).

Definition file_rows (wb : workbook) : list (list value) :=
  match wb with
  | Loaded (_ :: data) _ => data
  | _ => []
  end.

Definition file_headers (wb : workbook) : list value :=
  match wb with
  | Loaded (headers :: _) _ => headers
  | _ => []
  end.

Definition column (name : string) (wb : workbook) : nat :=
  default O (index (VStr name) (file_headers wb)).

(** The row loop of a well-formed file. *)
Definition ingest_rows (pk : string) (wb : workbook) (st : state) : state :=
  foldl (ingest_row pk (column COL_NAME wb) (column COL_PHONE wb)
           (column COL_ID wb) (column COL_TOTAL wb)) st (file_rows wb).

Definition add_processed (file : string) (st : state) : state :=
  {| all_data := all_data st;
     all_participants := all_participants st;
     participant_info := participant_info st;
     processed_files := processed_files st ++ [file] |}.

(** The identity a data row of a period file carries: the student id with
    the name and phone cells, for a row that passes the two guards of the
    row loop. *)
Definition row_identity (name_idx phone_idx id_idx score_idx : nat)
    (row : list value) : option (string * (value * value)) :=
  if (length row <=? max4 name_idx phone_idx id_idx score_idx)%nat then None
  else
    let student_id := str (cell row id_idx) in
    if decide (student_id = "") then None
    else Some (student_id, (cell row name_idx, cell row phone_idx)).

Definition file_identities (wb : workbook) : list (string * (value * value)) :=
  omap (row_identity (column COL_NAME wb) (column COL_PHONE wb)
          (column COL_ID wb) (column COL_TOTAL wb)) (file_rows wb).

(** The identities seen in a list of files, in reading order. *)
Definition sightings (fs : string → workbook) (files : list string)
    : list (string * (value * value)) :=
  files ≫= (λ file, file_identities (fs file)).

(** The first identity recorded for [student_id] in a list of sightings. *)
Fixpoint first_info (l : list (string * (value * value))) (student_id : string)
    : option (value * value) :=
  match l with
  | [] => None
  | (k, i) :: l' => if decide (k = student_id) then Some i else first_info l' student_id
  end.

(** The identity of [student_id] at its first sighting in a run: the one of
    the loaded summary if it has the id, else the one of the first row with
    that id in the first consumed file that has one. *)
Definition first_sighting (fs : string → workbook) (files : list string)
    (summary : option workbook) (update_mode : bool) (student_id : string)
    : option (value * value) :=
  match (load_existing summary update_mode).1 !! student_id with
  | Some d => Some (info d)
  | None =>
      first_info
        (sightings fs (processed_files (run_state fs files summary update_mode)))
        student_id
  end.

(** The score recorded for a participant and a period, if any. *)
Definition score_entry (st : state) (student_id period : string) : option value :=
  all_data st !! student_id ≫= λ d, scores d !! period.

(** Every period that a score mapping of [data] refers to satisfies [P]. *)
Definition scores_within (P : string → Prop) (data : gmap string student) : Prop :=
  ∀ student_id d period,
    data !! student_id = Some d → is_Some (scores d !! period) → P period.

(** The total of a written data row: its last cell. *)
Definition total_cell (row : list value) : Z :=
  match last row with
  | Some (VInt z) => z
  | _ => 0
  end.

(** The three collections of the state describe the same participants. *)
Definition consistent (st : state) : Prop :=
  all_participants st = dom (participant_info st) ∧
  dom (all_data st) = dom (participant_info st).

(** The periods known after the file loop of a run (lines 132-135). *)
Definition run_periods (fs : string → workbook) (files : list string)
    (summary : option workbook) (update_mode : bool) : list string :=
  all_periods_of (load_existing summary update_mode).2
    (run_state fs files summary update_mode).

Definition sum_scores (zs : list Z) : Z := foldr Z.add 0 zs.

(** [occurs], decided. *)
Fixpoint occursb (pat s : string) : bool :=
  String.prefix pat s ||
  match s with
  | EmptyString => false
  | String _ s' => occursb pat s'
  end.

(** A header cell that holds text. *)
Definition is_text (v : value) : Prop := ∃ s, v = VStr s.

(** ** Sample batches *)

(** [S1] and [S2] are the two period files of the documented example. *)

Module Samples.
Definition hdr : list value :=
  [VStr COL_NAME; VStr COL_PHONE; VStr COL_ID; VStr COL_TOTAL].

Definition S1 : workbook :=
  Loaded [hdr; [VStr "A"; VNone; VInt 100; VInt 50];
               [VStr "B"; VNone; VInt 101; VInt 30]] false.
Definition S2 : workbook :=
  Loaded [hdr; [VNone; VNone; VInt 101; VInt 40];
               [VStr "C"; VNone; VInt 102; VInt 10]] false.

Definition fs (file : string) : workbook :=
  if decide (file = "S1.xlsx") then S1
  else if decide (file = "S2.xlsx") then S2
  else LoadError.

(** A batch with a file that lacks the id column and a file that does
    not open. *)
Definition S2_no_id : workbook :=
  Loaded [[VStr COL_NAME; VStr COL_PHONE; VStr COL_TOTAL];
          [VStr "C"; VNone; VInt 10]] false.

Definition fs_bad (file : string) : workbook :=
  if decide (file = "S1.xlsx") then S1
  else if decide (file = "S2.xlsx") then S2_no_id
  else LoadError.

(** A file with a row without a name and a row without an id. *)
Definition S1_gaps : workbook :=
  Loaded [hdr; [VNone; VInt 555; VInt 7; VInt 5];
               [VStr "D"; VNone; VNone; VInt 3]] false.

Definition fs_gaps (file : string) : workbook :=
  if decide (file = "S1.xlsx") then S1_gaps else LoadError.

(** A summary with a row without an id and an extra column, the seat
    number, whose header starts with an S. *)
Definition summary_headers : list value :=
  [VStr COL_NAME; VStr COL_PHONE; VStr COL_ID; VStr "S1"; VStr "Seat";
   VStr COL_TOTAL].

Definition summary_rows : list (list value) :=
  [[VStr "A"; VNone; VStr "100"; VInt 50; VInt 12; VInt 50];
   [VStr "E"; VNone; VNone; VInt 20; VNone; VInt 20]].

Definition summary_extra : workbook :=
  Loaded (summary_headers :: summary_rows) false.

(** The table written for [S1.xlsx] and [S2.xlsx]. *)
Definition table : list (list value) :=
  [[VStr COL_NAME; VStr COL_PHONE; VStr COL_ID; VStr "S1"; VStr "S2";
    VStr COL_TOTAL];
   [VStr "B"; VNone; VStr "101"; VInt 30; VInt 40; VInt 70];
   [VStr "A"; VNone; VStr "100"; VInt 50; VInt 0; VInt 50];
   [VStr "C"; VNone; VStr "102"; VInt 0; VInt 10; VInt 10]].

(** The table written for the batch [fs_bad]. *)
Definition table_bad : list (list value) :=
  [[VStr COL_NAME; VStr COL_PHONE; VStr COL_ID; VStr "S1"; VStr COL_TOTAL];
   [VStr "A"; VNone; VStr "100"; VInt 50; VInt 50];
   [VStr "B"; VNone; VStr "101"; VInt 30; VInt 30]].

(** The table written for the batch [fs_gaps]. *)
Definition table_gaps : list (list value) :=
  [[VStr COL_NAME; VStr COL_PHONE; VStr COL_ID; VStr "S1"; VStr COL_TOTAL];
   [VNone; VInt 555; VStr "7"; VInt 5; VInt 5];
   [VStr "D"; VNone; VStr "None"; VInt 3; VInt 3]].
End Samples.

(** ** Notions used for further properties *)

(** The score a data row of a period file carries, for a row that passes
    the two guards of the row loop. *)
Definition row_score (name_idx phone_idx id_idx score_idx : nat)
    (row : list value) : option (string * value) :=
  if (length row <=? max4 name_idx phone_idx id_idx score_idx)%nat then None
  else
    let student_id := str (cell row id_idx) in
    if decide (student_id = "") then None
    else Some (student_id, or_zero (cell row score_idx)).

Definition file_scores (wb : workbook) : list (string * value) :=
  omap (row_score (column COL_NAME wb) (column COL_PHONE wb)
          (column COL_ID wb) (column COL_TOTAL wb)) (file_rows wb).

(** The scores carried by the files of [files] whose label is [period], in
    reading order. *)
Definition period_scores (fs : string → workbook) (period : string)
    (files : list string) : list (string * value) :=
  filter (λ file, period_key file = period) files ≫= (λ file, file_scores (fs file)).

(** The last value recorded for [student_id] in a list of records. *)
Fixpoint last_record {A : Type} (l : list (string * A)) (student_id : string)
    : option A :=
  match l with
  | [] => None
  | (k, v) :: l' =>
      match last_record l' student_id with
      | Some w => Some w
      | None => if decide (k = student_id) then Some v else None
      end
  end.

(** A cell value that is a number. *)
Definition is_number (v : value) : Prop := ∃ z, v = VInt z.

(** Every score recorded for a participant in one of [periods] is a
    number. *)
Definition numeric_scores (st : state) (periods : list string) : Prop :=
  ∀ student_id period v,
    student_id ∈ all_participants st → period ∈ periods →
    score_entry st student_id period = Some v → is_number v.

(** The score of a participant in a period as the builder reads it. *)
Definition score_or_zero (st : state) (student_id period : string) : value :=
  default (VInt 0) (score_entry st student_id period).

(** The existing summary cannot be used: it does not open, has no row,
    breaks while its rows are read, lacks one of its four fixed columns, or
    has a header cell that is not text. *)
Definition summary_rejected (wb : workbook) : Prop :=
  match wb with
  | LoadError => True
  | Loaded [] _ => True
  | Loaded (headers :: _) broken =>
      broken = true ∨
      (∃ col, col ∈ required_columns ∧ VStr col ∉ headers) ∨
      Exists (λ h, ¬ is_text h) headers
  end.

(** The record a data row of the summary carries (lines 229-250), for a row
    that passes the two guards of the row loop. *)
Definition load_entry (headers : list value) (period_columns : list string)
    (name_idx phone_idx id_idx total_idx : nat) (row : list value)
    : option (string * student) :=
  if (length row <=? max4 name_idx phone_idx id_idx total_idx)%nat then None
  else
    let student_id := str (cell row id_idx) in
    if decide (student_id = "") then None
    else
      Some (student_id,
            {| info := (cell row name_idx, cell row phone_idx);
               scores := foldl (load_score headers row) ∅ period_columns |}).

(** The score cell a data row of a period file carries, as it is read
    (line 102, before [None] is replaced), for a row that passes the two
    guards of the row loop. *)
Definition row_score_cell (name_idx phone_idx id_idx score_idx : nat)
    (row : list value) : option (string * value) :=
  if (length row <=? max4 name_idx phone_idx id_idx score_idx)%nat then None
  else
    let student_id := str (cell row id_idx) in
    if decide (student_id = "") then None
    else Some (student_id, cell row score_idx).

Definition file_score_cells (wb : workbook) : list (string * value) :=
  omap (row_score_cell (column COL_NAME wb) (column COL_PHONE wb)
          (column COL_ID wb) (column COL_TOTAL wb)) (file_rows wb).

(** The score cells carried by the files of [files] whose label is
    [period], in reading order. *)
Definition period_score_cells (fs : string → workbook) (period : string)
    (files : list string) : list (string * value) :=
  filter (λ file, period_key file = period) files
    ≫= (λ file, file_score_cells (fs file)).

(** A data row of the summary with its id, for a row that passes the two
    guards of the row loop of the loader (lines 230-236). *)
Definition summary_row (name_idx phone_idx id_idx total_idx : nat)
    (row : list value) : option (string * list value) :=
  if (length row <=? max4 name_idx phone_idx id_idx total_idx)%nat then None
  else
    let student_id := str (cell row id_idx) in
    if decide (student_id = "") then None
    else Some (student_id, row).

(** The row of the summary that the loader keeps for [student_id]: the last
    accepted row with that id. *)
Definition loaded_row (wb : workbook) (student_id : string)
    : option (list value) :=
  last_record
    (omap (summary_row (column COL_NAME wb) (column COL_PHONE wb)
             (column COL_ID wb) (column COL_TOTAL wb)) (file_rows wb))
    student_id.

(** The score the loader stores for the cell at position [i] of a row
    (lines 242-248): the number 0 for an empty cell, and nothing when the
    row is too short. *)
Definition loaded_cell (row : list value) (i : nat) : option value :=
  if (i <? length row)%nat
  then Some (match cell row i with VNone => VInt 0 | v => v end)
  else None.

(** The sheet read back after [table] was saved, [reload] being what a saved
    cell reads back as.  Text and empty cells read back as they were
    written; a number is written to the file with 16 significant digits. *)
Definition saved_sheet (reload : value → value) (table : list (list value))
    : workbook :=
  Loaded ((λ row : list value, reload <$> row) <$> table) false.

(** ** The presentation step ([beautify_excel], lines 260-340) *)

(** The style of a cell, as far as [beautify_excel] sets it: the colour of
    the fill, a bold font, centred alignment, a thin border. *)
Record cell_style : Type := {
  cs_fill : option string;
  cs_bold : bool;
  cs_centered : bool;
  cs_bordered : bool
}.

Definition plain_style : cell_style :=
  {| cs_fill := None; cs_bold := false; cs_centered := false;
     cs_bordered := false |}.

Record sheet_cell : Type := {
  sc_value : value;
  sc_style : cell_style
}.

(** A worksheet open for writing: its cells by row, the widths set in
    [column_dimensions] (by column number; [get_column_letter] names the
    columns one to one) and [freeze_panes].  The rows and columns are
    counted from 1 as in openpyxl.  The sheet is the full grid written at
    lines 148-149 and 175-177, the only sheet the function is called on; on
    a full grid [ws.cell] never has to create a cell. *)
Record worksheet : Type := {
  ws_cells : list (list sheet_cell);
  column_width : gmap nat Z;
  freeze_panes : option string
}.

Definition HEADER_FILL : string := "B0C4DE".
Definition PERIOD_FILL : string := "D5E8D4".
Definition TOTAL_FILL : string := "FFD700".
Definition ZERO_FILL : string := "FFCCCC".

(** [ws.max_row] and [ws.max_column]: 1 for a sheet without cells. *)
Definition max_row (cells : list (list sheet_cell)) : nat :=
  Nat.max 1 (length cells).

Definition max_column (cells : list (list sheet_cell)) : nat :=
  Nat.max 1 (max_list (length <$> cells)).

(** The cell at a row and column, if the grid has it. *)
Definition cell_at (cells : list (list sheet_cell)) (row column : nat)
    : option sheet_cell :=
  cells !! pred row ≫= λ r, r !! pred column.

(** The value of [ws.cell(row, column)]: [None] for a cell without value. *)
Definition value_at (cells : list (list sheet_cell)) (row column : nat) : value :=
  default VNone (sc_value <$> cell_at cells row column).

(** Assignments to the style attributes of a cell: [f] gives the new style
    from the cell; the value stays. *)
Definition apply_style (f : sheet_cell → cell_style) (x : sheet_cell)
    : sheet_cell :=
  {| sc_value := sc_value x; sc_style := f x |}.

(** The same on [ws.cell(row, column)]. *)
Definition restyle (f : sheet_cell → cell_style) (row column : nat)
    (cells : list (list sheet_cell)) : list (list sheet_cell) :=
  alter (alter (apply_style f) (pred column)) (pred row) cells.

(** Lines 289-292. *)
Definition header_style (x : sheet_cell) : cell_style :=
  {| cs_fill := Some HEADER_FILL; cs_bold := true; cs_centered := true;
     cs_bordered := true |}.

(** Lines 313-319: the fill of a period cell is replaced when its value
    equals 0. *)
Definition period_style (x : sheet_cell) : cell_style :=
  {| cs_fill := Some (if decide (sc_value x = VInt 0) then ZERO_FILL
                      else PERIOD_FILL);
     cs_bold := cs_bold (sc_style x); cs_centered := true;
     cs_bordered := true |}.

(** Lines 327-330. *)
Definition total_style (x : sheet_cell) : cell_style :=
  {| cs_fill := Some TOTAL_FILL; cs_bold := true; cs_centered := true;
     cs_bordered := true |}.

(** Line 337. *)
Definition border_style (x : sheet_cell) : cell_style :=
  {| cs_fill := cs_fill (sc_style x); cs_bold := cs_bold (sc_style x);
     cs_centered := cs_centered (sc_style x); cs_bordered := true |}.

(** The loops over [range(2, ws.max_row + 1)] for one column, lines 311-319
    and 325-330. *)
Definition style_column (f : sheet_cell → cell_style) (column : nat)
    (cells : list (list sheet_cell)) : list (list sheet_cell) :=
  foldl (λ g row, restyle f row column g) cells (seq 2 (max_row cells - 1)).

(** The body of the loop over the columns, lines 304-330; the state is the
    cells, the widths and [period_indices]. *)
Definition column_step (period_columns : list string)
    (acc : list (list sheet_cell) * gmap nat Z * list nat)
    (ch : nat * value) : list (list sheet_cell) * gmap nat Z * list nat :=
  let '(cells, widths, period_indices) := acc in
  let '(col_idx, header) := ch in
  let widths := <[col_idx := 12]> widths in
  if bool_decide (header ∈ VStr <$> period_columns)
  then (style_column period_style col_idx cells, widths,
        period_indices ++ [col_idx])
  else if bool_decide (header = VStr COL_TOTAL)
  then (style_column total_style col_idx cells, widths, period_indices)
  else (cells, widths, period_indices).

(** The body of the two loops of lines 333-337. *)
Definition border_step (headers : list value) (period_indices : list nat)
    (row : nat) (cells : list (list sheet_cell)) (col : nat)
    : list (list sheet_cell) :=
  if bool_decide (col ∉ period_indices) &&
     bool_decide (headers !!! (col - 1)%nat ≠ VStr COL_TOTAL)
  then restyle border_style row col cells
  else cells.

(** [beautify_excel]; [None] is the IndexError of [list(ws.rows)[0]] on a
    sheet without cells. *)
Definition beautify_excel (ws : worksheet) (period_columns : list string)
    : option worksheet :=
  match ws_cells ws with
  | [] => None
  | _ :: _ =>
      let headers :=
        (λ c, value_at (ws_cells ws) 1 c) <$> seq 1 (max_column (ws_cells ws)) in
      let columns := zip (seq 1 (length headers)) headers in
      let cells1 :=
        foldl (λ g ch, restyle header_style 1 ch.1 g) (ws_cells ws) columns in
      let widths1 :=
        <[3%nat := 15]> (<[2%nat := 15]> (<[1%nat := 30]> (column_width ws))) in
      let '(cells2, widths2, period_indices) :=
        foldl (column_step period_columns) (cells1, widths1, []) columns in
      let cells3 :=
        foldl (λ g row,
                 foldl (border_step headers period_indices row) g
                   (seq 1 (max_column g)))
          cells2 (seq 2 (max_row cells2 - 1)) in
      Some {| ws_cells := cells3; column_width := widths2;
              freeze_panes := Some "A2" |}
  end.

(** The sheet written at lines 138-149 and 175-177, before it is styled. *)
Definition sheet_of_table (table : list (list value)) : worksheet :=
  {| ws_cells :=
       (λ row : list value,
          (λ v, {| sc_value := v; sc_style := plain_style |}) <$> row) <$> table;
     column_width := ∅;
     freeze_panes := None |}.

(** The values of a grid of cells. *)
Definition sheet_values (cells : list (list sheet_cell)) : list (list value) :=
  (λ row : list sheet_cell, sc_value <$> row) <$> cells.

(** The style that the loop over the columns gives to the cells of a
    column below the header row, by the header of the column. *)
Definition column_style (period_columns : list string) (header : value)
    (x : sheet_cell) : cell_style :=
  if decide (header ∈ VStr <$> period_columns) then period_style x
  else if decide (header = VStr COL_TOTAL) then total_style x
  else sc_style x.

(** The style a cell has after the presentation step, by its row and the
    header of its column. *)
Definition final_style (period_columns : list string) (row : nat)
    (header : value) (x : sheet_cell) : cell_style :=
  if decide (row = 1%nat) then header_style x
  else if decide (header ∈ VStr <$> period_columns) then period_style x
  else if decide (header = VStr COL_TOTAL) then total_style x
  else border_style x.

(** ** More sample batches *)

Module MoreSamples.
(** A summary with an empty header cell. *)
Definition summary_blank : workbook :=
  Loaded [[VStr COL_NAME; VStr COL_PHONE; VStr COL_ID; VStr "S1"; VNone;
           VStr COL_TOTAL];
          [VStr "A"; VNone; VStr "100"; VInt 50; VNone; VInt 50]] false.

(** The batch of [Samples.fs] after [S1.xlsx] was corrected. *)
Definition S1_corrected : workbook :=
  Loaded [Samples.hdr; [VStr "A"; VNone; VInt 100; VInt 55];
                       [VStr "B"; VNone; VInt 101; VInt 35]] false.

Definition fs_corrected (file : string) : workbook :=
  if decide (file = "S1.xlsx") then S1_corrected else Samples.fs file.

(** Rows of a summary with the same id. *)
Definition rows_same_id : list (list value) :=
  [[VStr "A"; VNone; VStr "100"; VInt 50; VInt 12; VInt 50];
   [VStr "Z"; VInt 777; VInt 100; VInt 20; VNone; VInt 20]].

(** Rows of a summary with other totals than [Samples.summary_rows]. *)
Definition rows_other_totals : list (list value) :=
  [[VStr "A"; VNone; VStr "100"; VInt 50; VInt 12; VInt 0];
   [VStr "E"; VNone; VNone; VInt 20; VNone; VStr "?"]].

(** Two period files that differ in a column of remarks only. *)
Definition hdr_remark : list value := Samples.hdr ++ [VStr "remark"].

Definition rows_remark : list (list value) :=
  [[VStr "A"; VNone; VInt 100; VInt 50; VStr "late"]].

Definition rows_remark' : list (list value) :=
  [[VStr "A"; VNone; VInt 100; VInt 50; VNone]].

Definition fs_remark (file : string) : workbook :=
  Loaded (hdr_remark :: rows_remark) false.

Definition fs_remark' (file : string) : workbook :=
  Loaded (hdr_remark :: rows_remark') false.

(** A way cells can read back from a saved sheet: text, empty cells and
    the integers up to [2^53] unchanged, a larger number rounded. *)
Definition reload_rounding (v : value) : value :=
  match v with
  | VInt z =>
      if decide (Z.abs z ≤ 2 ^ 53) then VInt z else VInt (2 ^ 53 * (z / 2 ^ 53))
  | _ => v
  end.

(** A period file with an empty score cell. *)
Definition fs_blank_score (file : string) : workbook :=
  Loaded [Samples.hdr; [VStr "A"; VNone; VInt 100; VNone]] false.

(** The sheet written for [Samples.table], and the sheet after styling. *)
Definition sheet : worksheet := sheet_of_table Samples.table.

Definition styled_sheet : worksheet :=
  default sheet (beautify_excel sheet ["S1"; "S2"]).
End MoreSamples.

(** * Properties *)

(** ** Sorting *)

Section SortFacts.
Context {A : Type} (le : A → A → bool).

Lemma insert_by_perm (x : A) (l : list A) : insert_by le x l ≡ₚ x :: l.
Proof.
  induction l as [|y l IH]; simpl; [done|].
  destruct (le x y); [done|].
  rewrite IH. apply Permutation_swap.
Qed.

Lemma sort_by_perm (l : list A) : sort_by le l ≡ₚ l.
Proof.
  induction l as [|x l IH]; simpl; [done|].
  by rewrite insert_by_perm, IH.
Qed.

Lemma elem_of_sort_by (x : A) (l : list A) : x ∈ sort_by le l ↔ x ∈ l.
Proof. by rewrite sort_by_perm. Qed.

Lemma sort_by_nil_inv (l : list A) : sort_by le l = [] → l = [].
Proof.
  intros H. apply Permutation_nil_r. by rewrite <- H, sort_by_perm.
Qed.

Context (le_total : ∀ x y, le x y = true ∨ le y x = true).
Context (le_trans : ∀ x y z, le x y = true → le y z = true → le x z = true).

Lemma insert_by_sorted (x : A) (l : list A) :
  StronglySorted (λ a b, le a b = true) l →
  StronglySorted (λ a b, le a b = true) (insert_by le x l).
Proof.
  induction 1 as [|y l Hs IH Hy]; simpl.
  - repeat constructor.
  - destruct (le x y) eqn:Hxy.
    + constructor; [by constructor|].
      constructor; [done|].
      eapply Forall_impl; [exact Hy|]. intros z Hz. by eapply le_trans.
    + constructor; [done|].
      rewrite insert_by_perm. constructor; [|done].
      destruct (le_total x y); congruence.
Qed.

Lemma sort_by_sorted (l : list A) :
  StronglySorted (λ a b, le a b = true) (sort_by le l).
Proof.
  induction l as [|x l IH]; simpl; [constructor|].
  by apply insert_by_sorted.
Qed.
End SortFacts.

Lemma elem_of_sorted_set (x : string) (l : list string) :
  x ∈ sorted_set l ↔ x ∈ l.
Proof.
  unfold sorted_set, sorted.
  by rewrite elem_of_sort_by, elem_of_elements, elem_of_list_to_set.
Qed.

Lemma StronglySorted_mono {A : Type} (R1 R2 : relation A) (l : list A) :
  (∀ x y, R1 x y → R2 x y) → StronglySorted R1 l → StronglySorted R2 l.
Proof.
  intros HR. induction 1 as [|x l _ IH Hx]; constructor; [done|].
  eapply Forall_impl; [exact Hx|]. auto.
Qed.

Lemma sort_rows_sorted (rd : list row_data) :
  StronglySorted (λ a b, r_total b ≤ r_total a) (sort_rows rd).
Proof.
  unfold sort_rows.
  eapply StronglySorted_mono; [|apply sort_by_sorted].
  - intros a b. simpl. by rewrite Z.leb_le.
  - intros x y. rewrite !Z.leb_le. lia.
  - intros x y z. rewrite !Z.leb_le. lia.
Qed.

(** ** Period labels *)

Lemma prefix_app (p s : string) :
  String.prefix p s = true → ∃ r, s = p +:+ r.
Proof.
  revert s. induction p as [|a p IH]; intros s; simpl.
  - intros _. by exists s.
  - destruct s as [|b s]; simpl; [done|].
    destruct (ascii_dec a b) as [->|]; [|done].
    intros [r ->]%IH. by exists r.
Qed.

Lemma not_occurs_tail (pat : string) (c : ascii) (s : string) :
  ¬ occurs pat (String c s) → ¬ occurs pat s.
Proof. intros H (a & b & ->). apply H. by exists (String c a), b. Qed.

Lemma not_occurs_prefix (pat s : string) :
  ¬ occurs pat s → ∀ r, s ≠ pat +:+ r.
Proof. intros H r ->. apply H. by exists "", r. Qed.

Lemma replace_from_cons (old new : string) (c : ascii) (s : string) :
  replace_from old new 0 (String c s) =
  if String.prefix old (String c s)
  then new +:+ replace_from old new (String.length old - 1) s
  else String c (replace_from old new 0 s).
Proof. reflexivity. Qed.

Lemma prefix_S (c : ascii) (s : string) :
  String.prefix "S" (String c s) = if ascii_dec "S" c then true else false.
Proof. cbn [String.prefix]. destruct (ascii_dec "S" c); by destruct s. Qed.

Lemma replace_S_app (a b : string) :
  replace "S" "" (a +:+ b) = replace "S" "" a +:+ replace "S" "" b.
Proof.
  unfold replace. induction a as [|c a IH]; [done|].
  change (String c a +:+ b) with (String c (a +:+ b)).
  rewrite !replace_from_cons, !prefix_S.
  change (String.length "S" - 1)%nat with 0%nat.
  destruct (ascii_dec "S" c); cbn [String.append]; by rewrite IH.
Qed.

Lemma replace_S_id (s : string) : ¬ occurs "S" s → replace "S" "" s = s.
Proof.
  unfold replace. induction s as [|c s IH]; [done|]. intros H.
  rewrite replace_from_cons, prefix_S.
  destruct (ascii_dec "S" c) as [<-|].
  - destruct H. by exists "", s.
  - f_equal. apply IH. by eapply not_occurs_tail.
Qed.

Lemma replace_xlsx_suffix (s : string) :
  ¬ occurs ".xlsx" s → replace ".xlsx" "" (s +:+ ".xlsx") = s.
Proof.
  unfold replace. induction s as [|c s IH]; [done|]. intros H.
  change (String c s +:+ ".xlsx") with (String c (s +:+ ".xlsx")).
  rewrite replace_from_cons.
  destruct (String.prefix ".xlsx" (String c (s +:+ ".xlsx"))) eqn:Hp.
  - exfalso. apply prefix_app in Hp as [r Hr].
    pose proof (not_occurs_prefix _ _ H) as Hn.
    destruct s as [|c1 [|c2 [|c3 [|c4 s]]]]; cbv [String.append] in Hr;
      simplify_eq.
    by apply (Hn s).
  - f_equal. apply IH. by eapply not_occurs_tail.
Qed.

(** ** The file loop *)

Lemma index_elem_of (x : value) (headers : list value) :
  x ∈ headers → is_Some (index x headers).
Proof.
  induction 1 as [x l|x y l _ IH]; simpl.
  - rewrite decide_True by done. eauto.
  - destruct (decide (y = x)); [eauto|]. destruct IH as [i ->]. simpl. eauto.
Qed.

Lemma index_lookup (x : value) (headers : list value) (i : nat) :
  index x headers = Some i → headers !! i = Some x.
Proof.
  revert i. induction headers as [|h hs IH]; intros i; simpl; [done|].
  destruct (decide (h = x)) as [->|]; [by intros [= <-]|].
  destruct (index x hs) as [j|]; simpl; [|done].
  intros [= <-]. by apply IH.
Qed.

Lemma missing_columns_nil (headers : list value) (col : string) :
  missing_columns headers = [] → col ∈ required_columns → VStr col ∈ headers.
Proof.
  intros Hm Hcol. destruct (decide (VStr col ∈ headers)) as [|Hn]; [done|].
  assert (col ∈ missing_columns headers) as Hin
    by (by apply list_elem_of_filter).
  rewrite Hm in Hin. by apply not_elem_of_nil in Hin.
Qed.

Lemma missing_columns_elem (headers : list value) (col : string) :
  col ∈ required_columns → VStr col ∉ headers → missing_columns headers ≠ [].
Proof.
  intros Hcol Hn Hm. by apply Hn, missing_columns_nil.
Qed.

Lemma ingest_file_not_consumed fs existing_periods update_mode st file :
  consumed fs existing_periods update_mode file = false →
  ingest_file fs existing_periods update_mode st file = st.
Proof.
  unfold consumed, skipped, ingest_file, well_formed.
  destruct (bool_decide _ && update_mode); [done|]. simpl.
  destruct (fs file) as [|[|headers data] broken]; [done..|].
  destruct (missing_columns headers) eqn:Hm; [|done].
  destruct broken; [|by rewrite bool_decide_true].
  intros _. by repeat case_match.
Qed.

Lemma ingest_file_consumed fs existing_periods update_mode st file :
  consumed fs existing_periods update_mode file = true →
  ingest_file fs existing_periods update_mode st file =
  add_processed file (ingest_rows (period_key file) (fs file) st).
Proof.
  unfold consumed, skipped, ingest_file, well_formed, ingest_rows, column.
  destruct (bool_decide _ && update_mode); [done|]. simpl.
  destruct (fs file) as [|[|headers data] [|]]; try done.
  intros Hm%bool_decide_eq_true. rewrite Hm. simpl.
  destruct (index_elem_of (VStr COL_NAME) headers) as [? ->];
    [apply missing_columns_nil; [done|set_solver]|].
  destruct (index_elem_of (VStr COL_PHONE) headers) as [? ->];
    [apply missing_columns_nil; [done|set_solver]|].
  destruct (index_elem_of (VStr COL_ID) headers) as [? ->];
    [apply missing_columns_nil; [done|set_solver]|].
  destruct (index_elem_of (VStr COL_TOTAL) headers) as [? ->];
    [apply missing_columns_nil; [done|set_solver]|].
  done.
Qed.

Lemma ingest_files_cons fs existing_periods update_mode st file files :
  ingest_files fs existing_periods update_mode st (file :: files) =
  ingest_files fs existing_periods update_mode
    (ingest_file fs existing_periods update_mode st file) files.
Proof. done. Qed.

Lemma ingest_files_app fs existing_periods update_mode st pre post :
  ingest_files fs existing_periods update_mode st (pre ++ post) =
  ingest_files fs existing_periods update_mode
    (ingest_files fs existing_periods update_mode st pre) post.
Proof. apply foldl_app. Qed.

(** A file that is not consumed leaves no trace in the state. *)
Lemma ingest_files_drop fs existing_periods update_mode st pre file post :
  consumed fs existing_periods update_mode file = false →
  ingest_files fs existing_periods update_mode st (pre ++ file :: post) =
  ingest_files fs existing_periods update_mode st (pre ++ post).
Proof.
  intros H. rewrite !ingest_files_app, ingest_files_cons.
  by rewrite ingest_file_not_consumed.
Qed.

Lemma processed_ingest_row pk ni pi ii si st row :
  processed_files (ingest_row pk ni pi ii si st row) = processed_files st.
Proof. unfold ingest_row. by repeat case_match. Qed.

Lemma processed_ingest_rows pk wb st :
  processed_files (ingest_rows pk wb st) = processed_files st.
Proof.
  unfold ingest_rows. generalize (file_rows wb) as rows. intros rows.
  revert st. induction rows as [|row rows IH]; intros st; simpl; [done|].
  by rewrite IH, processed_ingest_row.
Qed.

(** The files recorded as processed are the consumed ones, in order. *)
Lemma processed_ingest_files fs existing_periods update_mode st files :
  processed_files (ingest_files fs existing_periods update_mode st files) =
  processed_files st ++ filter (λ f, consumed fs existing_periods update_mode f = true) files.
Proof.
  revert st. induction files as [|file files IH]; intros st.
  - simpl. by rewrite app_nil_r.
  - rewrite ingest_files_cons, IH.
    destruct (consumed fs existing_periods update_mode file) eqn:Hc.
    + rewrite filter_cons_True by done.
      rewrite ingest_file_consumed by done. simpl.
      by rewrite processed_ingest_rows, <- app_assoc.
    + rewrite filter_cons_False by congruence.
      by rewrite ingest_file_not_consumed.
Qed.

(** ** The row loop *)

Lemma first_info_app l1 l2 student_id :
  first_info (l1 ++ l2) student_id =
  match first_info l1 student_id with
  | Some i => Some i
  | None => first_info l2 student_id
  end.
Proof.
  induction l1 as [|[k i] l1 IH]; simpl; [done|].
  by destruct (decide (k = student_id)).
Qed.

Lemma pinfo_ingest_row pk ni pi ii si st row student_id :
  participant_info (ingest_row pk ni pi ii si st row) !! student_id =
  match participant_info st !! student_id with
  | Some i => Some i
  | None => first_info (option_list (row_identity ni pi ii si row)) student_id
  end.
Proof.
  unfold ingest_row, row_identity.
  destruct (length row <=? max4 ni pi ii si)%nat; simpl.
  { by destruct (participant_info st !! student_id). }
  destruct (decide (str (cell row ii) = "")); simpl.
  { by destruct (participant_info st !! student_id). }
  destruct (decide (str (cell row ii) = student_id)) as [<-|Hne].
  - by destruct (participant_info st !! str (cell row ii)) eqn:E;
      [rewrite E | rewrite lookup_insert_eq].
  - destruct (participant_info st !! str (cell row ii)).
    + by destruct (participant_info st !! student_id).
    + rewrite lookup_insert_ne by done.
      by destruct (participant_info st !! student_id).
Qed.

Lemma pinfo_ingest_rows pk ni pi ii si rows st student_id :
  participant_info (foldl (ingest_row pk ni pi ii si) st rows) !! student_id =
  match participant_info st !! student_id with
  | Some i => Some i
  | None => first_info (omap (row_identity ni pi ii si) rows) student_id
  end.
Proof.
  revert st. induction rows as [|row rows IH]; intros st; simpl.
  { by destruct (participant_info st !! student_id). }
  rewrite IH, pinfo_ingest_row.
  destruct (participant_info st !! student_id); [done|].
  destruct (row_identity ni pi ii si row) as [[k i]|]; simpl; [|done].
  by destruct (decide (k = student_id)).
Qed.

Lemma consistent_ingest_row pk ni pi ii si st row :
  consistent st → consistent (ingest_row pk ni pi ii si st row).
Proof.
  unfold consistent, ingest_row. intros [Hp Hd].
  destruct (length row <=? max4 ni pi ii si)%nat; [done|].
  destruct (decide (str (cell row ii) = "")); [done|]. simpl.
  set (sid := str (cell row ii)).
  assert (dom (alter (set_score pk (or_zero (cell row si))) sid
                 match all_data st !! sid with
                 | Some _ => all_data st
                 | None => <[sid:={| info := (cell row ni, cell row pi);
                                     scores := ∅ |}]> (all_data st)
                 end) = {[sid]} ∪ dom (all_data st)) as ->.
  { rewrite dom_alter_L.
    destruct (all_data st !! sid) eqn:E; [|by rewrite dom_insert_L].
    apply (elem_of_dom_2 (D:=gset string)) in E. symmetry.
    by apply subseteq_union_1_L, singleton_subseteq_l. }
  assert (dom match participant_info st !! sid with
              | Some _ => participant_info st
              | None => <[sid:=(cell row ni, cell row pi)]> (participant_info st)
              end = {[sid]} ∪ dom (participant_info st)) as ->.
  { destruct (participant_info st !! sid) eqn:E; [|by rewrite dom_insert_L].
    apply (elem_of_dom_2 (D:=gset string)) in E. symmetry.
    by apply subseteq_union_1_L, singleton_subseteq_l. }
  by rewrite Hp, Hd.
Qed.

Lemma scores_within_mono (P Q : string → Prop) data :
  (∀ p, P p → Q p) → scores_within P data → scores_within Q data.
Proof. intros HPQ H sid d p Hd Hp. eapply HPQ, H; eauto. Qed.

Lemma scores_within_ingest_row (P : string → Prop) pk ni pi ii si st row :
  P pk → scores_within P (all_data st) →
  scores_within P (all_data (ingest_row pk ni pi ii si st row)).
Proof.
  unfold ingest_row. intros Hpk H.
  destruct (length row <=? max4 ni pi ii si)%nat; [done|].
  destruct (decide (str (cell row ii) = "")); [done|]. simpl.
  set (sid := str (cell row ii)).
  intros sid' d p. rewrite lookup_alter.
  destruct (decide (sid = sid')) as [<-|Hne].
  - destruct (all_data st !! sid) as [d0|] eqn:E.
    + rewrite E. simpl. intros [= <-]. simpl.
      destruct (decide (pk = p)) as [<-|]; [done|].
      rewrite lookup_insert_ne by done. by eapply H.
    + rewrite lookup_insert_eq. simpl. intros [= <-]. simpl.
      destruct (decide (pk = p)) as [<-|]; [done|].
      rewrite lookup_insert_ne, lookup_empty by done. by intros [? ?].
  - destruct (all_data st !! sid); [by eapply H|].
    rewrite lookup_insert_ne by done. by eapply H.
Qed.

Section RowLoop.
Context (pk : string) (wb : workbook).

Lemma pinfo_ingest_rows_file st student_id :
  participant_info (ingest_rows pk wb st) !! student_id =
  match participant_info st !! student_id with
  | Some i => Some i
  | None => first_info (file_identities wb) student_id
  end.
Proof. apply pinfo_ingest_rows. Qed.

Lemma consistent_ingest_rows st :
  consistent st → consistent (ingest_rows pk wb st).
Proof.
  unfold ingest_rows. generalize (file_rows wb) as rows. intros rows.
  revert st. induction rows as [|row rows IH]; intros st Hst; simpl; [done|].
  by apply IH, consistent_ingest_row.
Qed.

Lemma scores_within_ingest_rows (P : string → Prop) st :
  P pk → scores_within P (all_data st) →
  scores_within P (all_data (ingest_rows pk wb st)).
Proof.
  intros Hpk. unfold ingest_rows. generalize (file_rows wb) as rows.
  intros rows. revert st.
  induction rows as [|row rows IH]; intros st Hst; simpl; [done|].
  by apply IH, scores_within_ingest_row.
Qed.
End RowLoop.

(** ** Invariants of the file loop *)

Section FileLoop.
Context (fs : string → workbook) (existing_periods : list string)
  (update_mode : bool).


Lemma pinfo_ingest_files files st student_id :
  participant_info (ingest_files fs existing_periods update_mode st files) !! student_id =
  match participant_info st !! student_id with
  | Some i => Some i
  | None => first_info (sightings fs (filter (λ f, consumed fs existing_periods update_mode f = true) files)) student_id
  end.
Proof.
  revert st. induction files as [|file files IH]; intros st.
  { simpl. by destruct (participant_info st !! student_id). }
  rewrite ingest_files_cons, IH.
  destruct (consumed fs existing_periods update_mode file) eqn:Hc.
  - rewrite filter_cons_True by done.
    rewrite ingest_file_consumed by done.
    unfold sightings. rewrite bind_cons, first_info_app. simpl.
    rewrite pinfo_ingest_rows_file.
    destruct (participant_info st !! student_id); [done|].
    by destruct (first_info (file_identities (fs file)) student_id).
  - rewrite filter_cons_False by congruence.
    by rewrite ingest_file_not_consumed.
Qed.

Lemma consistent_ingest_files files st :
  consistent st → consistent (ingest_files fs existing_periods update_mode st files).
Proof.
  revert st. induction files as [|file files IH]; intros st Hst; [done|].
  rewrite ingest_files_cons. apply IH.
  destruct (consumed fs existing_periods update_mode file) eqn:Hc.
  - rewrite ingest_file_consumed by done.
    by apply (consistent_ingest_rows (period_key file) (fs file)) in Hst.
  - by rewrite ingest_file_not_consumed.
Qed.

Lemma scores_within_ingest_files (known : list string) files st :
  scores_within (λ p, p ∈ known ∨ p ∈ period_key <$> processed_files st)
    (all_data st) →
  scores_within
    (λ p, p ∈ known ∨ p ∈ period_key <$> processed_files (ingest_files fs existing_periods update_mode st files))
    (all_data (ingest_files fs existing_periods update_mode st files)).
Proof.
  revert st. induction files as [|file files IH]; intros st Hst; [done|].
  rewrite ingest_files_cons. apply IH.
  destruct (consumed fs existing_periods update_mode file) eqn:Hc.
  - rewrite ingest_file_consumed by done. simpl.
    rewrite processed_ingest_rows.
    apply scores_within_ingest_rows.
    + right. rewrite fmap_app, elem_of_app. right. constructor.
    + eapply scores_within_mono; [|exact Hst].
      intros p [?|?]; [by left|right]. rewrite fmap_app, elem_of_app. by left.
  - by rewrite ingest_file_not_consumed.
Qed.
End FileLoop.

(** ** The loader *)

Lemma load_score_keys headers row periods sc p :
  is_Some (foldl (load_score headers row) sc periods !! p) →
  is_Some (sc !! p) ∨ p ∈ periods.
Proof.
  revert sc. induction periods as [|q periods IH]; intros sc; simpl; [auto|].
  intros [H|H]%IH; [|right; by constructor].
  unfold load_score in H.
  destruct (index (VStr q) headers) as [i|]; [|by left].
  destruct (i <? length row)%nat; [|by left].
  destruct (decide (q = p)) as [->|]; [right; constructor|].
  rewrite lookup_insert_ne in H by done. by left.
Qed.

Lemma scores_within_load_row (P : string → Prop) headers periods ni pi ii ti
    data row :
  (∀ p, p ∈ periods → P p) → scores_within P data →
  scores_within P (load_row headers periods ni pi ii ti data row).
Proof.
  intros HP H. unfold load_row.
  destruct (length row <=? max4 ni pi ii ti)%nat; [done|].
  destruct (decide (str (cell row ii) = "")); [done|].
  intros sid d p. destruct (decide (str (cell row ii) = sid)) as [<-|].
  - rewrite lookup_insert_eq. intros [= <-]. simpl.
    intros [Hs|Hp]%load_score_keys; [|by apply HP].
    rewrite lookup_empty in Hs. by destruct Hs.
  - rewrite lookup_insert_ne by done. by eapply H.
Qed.

Lemma scores_within_empty (P : string → Prop) : scores_within P ∅.
Proof. intros sid d p. by rewrite lookup_empty. Qed.

Lemma scores_within_load_rows (P : string → Prop) headers periods ni pi ii ti
    rows data :
  (∀ p, p ∈ periods → P p) → scores_within P data →
  scores_within P (foldl (load_row headers periods ni pi ii ti) data rows).
Proof.
  intros HP. revert data.
  induction rows as [|row rows IH]; intros data Hdata; simpl; [done|].
  by apply IH, scores_within_load_row.
Qed.

Lemma scores_within_read_existing_summary wb :
  scores_within (λ p, p ∈ (read_existing_summary wb).2)
    (read_existing_summary wb).1.
Proof.
  unfold read_existing_summary.
  repeat case_match; simpl; try apply scores_within_empty.
  apply scores_within_load_rows; [done|apply scores_within_empty].
Qed.

Lemma scores_within_load_existing summary update_mode :
  scores_within (λ p, p ∈ (load_existing summary update_mode).2)
    (load_existing summary update_mode).1.
Proof.
  unfold load_existing. destruct summary as [wb|], update_mode; simpl;
    try apply scores_within_empty.
  apply scores_within_read_existing_summary.
Qed.

Lemma consistent_initial_state existing_data :
  consistent (initial_state existing_data).
Proof. unfold consistent. simpl. by rewrite dom_fmap_L. Qed.

(** ** The state of a run *)

Section Run.
Context (fs : string → workbook) (files : list string)
  (summary : option workbook) (update_mode : bool).

Lemma run_state_eq :
  run_state fs files summary update_mode =
  ingest_files fs (load_existing summary update_mode).2 update_mode
    (initial_state (load_existing summary update_mode).1) files.
Proof. unfold run_state. by destruct (load_existing summary update_mode). Qed.

Lemma run_state_processed :
  processed_files (run_state fs files summary update_mode) =
  filter (λ f, consumed fs (load_existing summary update_mode).2 update_mode f = true)
    files.
Proof. by rewrite run_state_eq, processed_ingest_files. Qed.

Lemma run_state_consistent :
  consistent (run_state fs files summary update_mode).
Proof.
  rewrite run_state_eq.
  apply consistent_ingest_files, consistent_initial_state.
Qed.

Lemma run_state_pinfo student_id :
  participant_info (run_state fs files summary update_mode) !! student_id =
  first_sighting fs files summary update_mode student_id.
Proof.
  unfold first_sighting. rewrite run_state_processed, run_state_eq.
  rewrite pinfo_ingest_files. simpl. rewrite lookup_fmap.
  by destruct ((load_existing summary update_mode).1 !! student_id).
Qed.

Lemma elem_of_run_periods p :
  p ∈ run_periods fs files summary update_mode ↔
  p ∈ (load_existing summary update_mode).2 ∨
  p ∈ period_key <$> processed_files (run_state fs files summary update_mode).
Proof.
  unfold run_periods, all_periods_of.
  by rewrite elem_of_sorted_set, elem_of_app.
Qed.

Lemma run_state_scores_within :
  scores_within (λ p, p ∈ run_periods fs files summary update_mode)
    (all_data (run_state fs files summary update_mode)).
Proof.
  eapply scores_within_mono; [intros p; apply elem_of_run_periods|].
  rewrite run_state_eq. apply scores_within_ingest_files. simpl.
  eapply scores_within_mono; [|apply scores_within_load_existing].
  intros p ?. by left.
Qed.
End Run.

(** ** The builder *)

Lemma add_period_None student_scores periods :
  foldl (add_period student_scores) None periods = None.
Proof. by induction periods. Qed.

Lemma add_period_fold student_scores periods cells total cells' total' :
  foldl (add_period student_scores) (Some (cells, total)) periods
    = Some (cells', total') →
  ∃ zs, cells' = cells ++ zs ∧ total' = total + sum_scores zs ∧
    Forall2 (λ p z, default (VInt 0) (student_scores !! p) = VInt z) periods zs.
Proof.
  revert cells total.
  induction periods as [|p periods IH]; intros cells total; simpl.
  - intros [= <- <-]. exists []. rewrite app_nil_r. simpl.
    split_and!; [done|lia|constructor].
  - destruct (default (VInt 0) (student_scores !! p)) as [| |z] eqn:E;
      try (by rewrite add_period_None).
    intros (zs & -> & -> & Hzs)%IH. exists (z :: zs).
    rewrite <- app_assoc. simpl. split_and!; [done|lia|by constructor].
Qed.

Lemma build_row_spec all_periods st student_id r :
  build_row all_periods st student_id = Some r →
  r_id r = student_id ∧
  (r_name r, r_phone r) =
    default (VStr UNKNOWN, VStr UNKNOWN) (participant_info st !! student_id) ∧
  Forall2 (λ p z, default (VInt 0) (score_entry st student_id p) = VInt z)
    all_periods (r_scores r) ∧
  r_total r = sum_scores (r_scores r).
Proof.
  unfold build_row.
  destruct (foldl _ _ all_periods) as [[cells total]|] eqn:E; simpl; [|done].
  intros [= <-]. simpl.
  apply add_period_fold in E as (zs & -> & -> & Hzs). simpl.
  split_and!; [done|by destruct (default _ _)| |lia].
  eapply Forall2_impl; [exact Hzs|]. intros p z <-. unfold score_entry.
  destruct (all_data st !! student_id); simpl; [done|].
  by rewrite lookup_empty.
Qed.

Lemma Forall2_elem_of_r {A B} (P : A → B → Prop) l k y :
  Forall2 P l k → y ∈ k → ∃ x, x ∈ l ∧ P x y.
Proof.
  induction 1 as [|x y' l k HP _ IH]; [by intros ?%not_elem_of_nil|].
  intros [->|Hy]%elem_of_cons.
  - exists x. split; [constructor|done].
  - destruct (IH Hy) as (x' & ? & ?). exists x'. split; [by constructor|done].
Qed.

Lemma Forall2_elem_of_l {A B} (P : A → B → Prop) l k x :
  Forall2 P l k → x ∈ l → ∃ y, y ∈ k ∧ P x y.
Proof.
  induction 1 as [|x' y l k HP _ IH]; [by intros ?%not_elem_of_nil|].
  intros [->|Hx]%elem_of_cons.
  - exists y. split; [constructor|done].
  - destruct (IH Hx) as (y' & ? & ?). exists y'. split; [by constructor|done].
Qed.

(** [process_activity_data] in terms of the state and periods of the run. *)
Lemma process_activity_data_eq fs glob_result summary update_mode :
  process_activity_data fs glob_result summary update_mode =
  match sorted glob_result with
  | [] => NoFiles
  | _ :: _ =>
      let st := run_state fs (sorted glob_result) summary update_mode in
      match processed_files st with
      | [] =>
          if decide ((load_existing summary update_mode).1 = ∅)
          then NothingRead else NothingNew
      | _ :: _ =>
          let all_periods :=
            run_periods fs (sorted glob_result) summary update_mode in
          match mapM (build_row all_periods st) (elements (all_participants st)) with
          | None => TypeError
          | Some result_data =>
              Written (header_cells all_periods :: (row_cells <$> sort_rows result_data))
          end
      end
  end.
Proof.
  unfold process_activity_data, run_periods, run_state.
  destruct (sorted glob_result) as [|file files]; [done|].
  by destruct (load_existing summary update_mode).
Qed.

(** What a written table is made of. *)
Lemma process_written fs glob_result summary update_mode table :
  process_activity_data fs glob_result summary update_mode = Written table →
  ∃ result_data,
    mapM (build_row (run_periods fs (sorted glob_result) summary update_mode)
            (run_state fs (sorted glob_result) summary update_mode))
      (elements (all_participants
         (run_state fs (sorted glob_result) summary update_mode)))
      = Some result_data ∧
    table = header_cells (run_periods fs (sorted glob_result) summary update_mode)
              :: (row_cells <$> sort_rows result_data) ∧
    processed_files (run_state fs (sorted glob_result) summary update_mode) ≠ [].
Proof.
  rewrite process_activity_data_eq.
  destruct (sorted glob_result) as [|file files]; [done|].
  cbv zeta.
  destruct (processed_files _) eqn:Hp; [by case_decide|].
  destruct (mapM _ _) as [rd|] eqn:Hrd; [|done].
  intros [= <-]. by exists rd.
Qed.

(** Every data row of a written table is the row built for a participant. *)
Lemma written_row fs glob_result summary update_mode table row :
  process_activity_data fs glob_result summary update_mode = Written table →
  row ∈ tail table →
  ∃ r, row = row_cells r ∧
    r_id r ∈ all_participants
      (run_state fs (sorted glob_result) summary update_mode) ∧
    build_row (run_periods fs (sorted glob_result) summary update_mode)
      (run_state fs (sorted glob_result) summary update_mode) (r_id r) = Some r.
Proof.
  intros (rd & Hrd & -> & _)%process_written. simpl.
  intros (r & -> & Hr)%list_elem_of_fmap.
  apply elem_of_sort_by in Hr.
  apply mapM_Some in Hrd.
  destruct (Forall2_elem_of_r _ _ _ _ Hrd Hr) as (sid & Hsid & Hb).
  pose proof (build_row_spec _ _ _ _ Hb) as (<- & _).
  exists r. split_and!; [done| |done].
  by apply elem_of_elements in Hsid.
Qed.

(** * The claims *)

Lemma raises_error_not_consumed fs existing_periods update_mode file :
  raises_error (fs file) →
  consumed fs existing_periods update_mode file = false.
Proof.
  unfold consumed, well_formed, raises_error.
  destruct (fs file) as [|[|headers data] broken];
    rewrite ?andb_false_r; try done.
  intros [_ ->]. by rewrite andb_false_r.
Qed.

Lemma run_state_drop fs pre file post summary update_mode :
  consumed fs (load_existing summary update_mode).2 update_mode file = false →
  run_state fs (pre ++ file :: post) summary update_mode =
  run_state fs (pre ++ post) summary update_mode.
Proof. intros H. rewrite !run_state_eq. by apply ingest_files_drop. Qed.

Lemma not_consumed_not_processed fs files summary update_mode file :
  consumed fs (load_existing summary update_mode).2 update_mode file = false →
  file ∉ processed_files (run_state fs files summary update_mode).
Proof.
  intros H. rewrite run_state_processed.
  intros [Hc _]%list_elem_of_filter. congruence.
Qed.

(** C1: a candidate period file on which opening or parsing raises an error
    is skipped as a whole.  The state after the file loop is the state of
    the same run without that file (so the file adds no participant and no
    score entry, and the files after it are processed as before), the file
    is not recorded as processed, and after the run every period that a
    participant's score mapping refers to is one of the known periods. *)
Theorem C1_failing_file_skipped fs pre file post summary update_mode :
  raises_error (fs file) →
  run_state fs (pre ++ file :: post) summary update_mode =
    run_state fs (pre ++ post) summary update_mode ∧
  (file ∉ processed_files (run_state fs (pre ++ file :: post) summary update_mode)) ∧
  scores_within
    (λ p, p ∈ run_periods fs (pre ++ file :: post) summary update_mode)
    (all_data (run_state fs (pre ++ file :: post) summary update_mode)).
Proof.
  intros Herr.
  pose proof (raises_error_not_consumed fs
    (load_existing summary update_mode).2 update_mode file Herr) as Hc.
  split_and!.
  - by apply run_state_drop.
  - by apply not_consumed_not_processed.
  - apply run_state_scores_within.
Qed.

(** C7: a candidate file whose header row lacks one of the four required
    columns is rejected as a whole: the state after the file loop is the
    state of the same run without that file, and every other file of the
    batch that is well formed and not passed over is still processed. *)
Theorem C7_missing_column_rejected fs pre file post summary update_mode
    headers data broken col :
  fs file = Loaded (headers :: data) broken →
  col ∈ required_columns →
  VStr col ∉ headers →
  run_state fs (pre ++ file :: post) summary update_mode =
    run_state fs (pre ++ post) summary update_mode ∧
  (file ∉ processed_files (run_state fs (pre ++ file :: post) summary update_mode)) ∧
  ∀ other,
    other ∈ pre ++ post →
    well_formed (fs other) = true →
    skipped (load_existing summary update_mode).2 update_mode other = false →
    other ∈ processed_files (run_state fs (pre ++ file :: post) summary update_mode).
Proof.
  intros Hfile Hcol Hmiss.
  assert (consumed fs (load_existing summary update_mode).2 update_mode file
            = false) as Hc.
  { unfold consumed, well_formed. rewrite Hfile.
    destruct broken; [by rewrite andb_false_r|].
    rewrite bool_decide_false, andb_false_r; [done|].
    by eapply missing_columns_elem. }
  split_and!.
  - by apply run_state_drop.
  - by apply not_consumed_not_processed.
  - intros other Hin Hwf Hskip. rewrite run_state_processed.
    apply list_elem_of_filter. split.
    + unfold consumed. by rewrite Hskip, Hwf.
    + rewrite elem_of_app in Hin. rewrite elem_of_app, elem_of_cons. tauto.
Qed.

(** C4: in a written table, the name and contact cells of every row are
    those of the first sighting of the row's identifier: the ones of the
    loaded summary when it has the identifier, otherwise the ones of the
    first row with that identifier among the consumed files, in reading
    order.  Every identifier that was sighted has such a row. *)
Theorem C4_first_write_wins fs glob_result summary update_mode table :
  process_activity_data fs glob_result summary update_mode = Written table →
  (∀ row, row ∈ tail table →
     ∃ student_id name phone rest,
       row = name :: phone :: VStr student_id :: rest ∧
       first_sighting fs (sorted glob_result) summary update_mode student_id
         = Some (name, phone)) ∧
  (∀ student_id name phone,
     first_sighting fs (sorted glob_result) summary update_mode student_id
       = Some (name, phone) →
     ∃ rest, name :: phone :: VStr student_id :: rest ∈ tail table).
Proof.
  intros Hrun. split.
  - intros row Hrow.
    destruct (written_row _ _ _ _ _ _ Hrun Hrow) as (r & -> & Hin & Hb).
    apply build_row_spec in Hb as (_ & Hinfo & _).
    destruct (run_state_consistent fs (sorted glob_result) summary update_mode)
      as [Hp _].
    rewrite Hp in Hin. apply elem_of_dom in Hin as [i Hi].
    rewrite Hi in Hinfo. simpl in Hinfo. subst i.
    exists (r_id r), (r_name r), (r_phone r),
      ((VInt <$> r_scores r) ++ [VInt (r_total r)]).
    split; [done|]. by rewrite <- run_state_pinfo.
  - intros sid name phone Hfirst. rewrite <- run_state_pinfo in Hfirst.
    destruct (process_written _ _ _ _ _ Hrun) as (rd & Hrd & -> & _).
    apply mapM_Some in Hrd.
    destruct (Forall2_elem_of_l _ _ _ sid Hrd) as (r & Hr & Hb).
    { apply elem_of_elements.
      destruct (run_state_consistent fs (sorted glob_result) summary update_mode)
        as [-> _].
      apply elem_of_dom. eauto. }
    apply build_row_spec in Hb as (Hid & Hinfo & _).
    rewrite Hfirst in Hinfo. simpl in Hinfo. injection Hinfo as <- <-.
    exists ((VInt <$> r_scores r) ++ [VInt (r_total r)]). simpl.
    apply list_elem_of_fmap. exists r. split; [by rewrite <- Hid|].
    by apply elem_of_sort_by.
Qed.

(** C5: in a written table, the header lists the known periods in sorted
    order between the identity columns and the total, and every data row
    holds, for each of these periods, the score recorded for the row's
    participant, or 0 where none is recorded; the last cell is the sum of
    these cells. *)
Theorem C5_total_is_sum fs glob_result summary update_mode table :
  process_activity_data fs glob_result summary update_mode = Written table →
  head table =
    Some (header_cells (run_periods fs (sorted glob_result) summary update_mode)) ∧
  ∀ row, row ∈ tail table →
    ∃ student_id name phone zs,
      row = [name; phone; VStr student_id] ++ (VInt <$> zs)
              ++ [VInt (sum_scores zs)] ∧
      Forall2
        (λ period z,
           match score_entry
                   (run_state fs (sorted glob_result) summary update_mode)
                   student_id period with
           | Some v => v = VInt z
           | None => z = 0
           end)
        (run_periods fs (sorted glob_result) summary update_mode) zs.
Proof.
  intros Hrun. split.
  - by destruct (process_written _ _ _ _ _ Hrun) as (rd & _ & -> & _).
  - intros row Hrow.
    destruct (written_row _ _ _ _ _ _ Hrun Hrow) as (r & -> & _ & Hb).
    apply build_row_spec in Hb as (_ & _ & Hzs & Htot).
    exists (r_id r), (r_name r), (r_phone r), (r_scores r).
    split; [unfold row_cells; by rewrite Htot|].
    eapply Forall2_impl; [exact Hzs|]. intros p z. cbv beta.
    destruct (score_entry _ (r_id r) p); simpl; [done|]. by intros [= <-].
Qed.

Lemma total_cell_row_cells r : total_cell (row_cells r) = r_total r.
Proof.
  unfold total_cell, row_cells.
  by rewrite !app_assoc, last_snoc.
Qed.

(** C6: the data rows of a written table are in non-increasing order of
    their total, the last cell of the row: every row has a number there and
    it is at least the total of every row below it. *)
Theorem C6_rows_sorted_by_total fs glob_result summary update_mode table :
  process_activity_data fs glob_result summary update_mode = Written table →
  (∀ row, row ∈ tail table → ∃ z, last row = Some (VInt z)) ∧
  StronglySorted (λ above below, total_cell below ≤ total_cell above)
    (tail table).
Proof.
  intros (rd & _ & -> & _)%process_written. simpl. split.
  - intros row (r & -> & _)%list_elem_of_fmap. exists (r_total r).
    unfold row_cells. by rewrite !app_assoc, last_snoc.
  - eapply StronglySorted_fmap; [|apply sort_rows_sorted].
    intros x y. by rewrite !total_cell_row_cells.
Qed.

(** C9 (as the code has it): the name cell of a written row is the name
    cell read at the first sighting of the row's identifier, also when that
    cell is absent: the row for an identifier first sighted with an absent
    name has [None] as its name, not the "unknown" text. *)
Theorem C9_absent_name_stays_absent fs glob_result summary update_mode table
    student_id phone :
  process_activity_data fs glob_result summary update_mode = Written table →
  first_sighting fs (sorted glob_result) summary update_mode student_id
    = Some (VNone, phone) →
  (∃ rest, VNone :: phone :: VStr student_id :: rest ∈ tail table) ∧
  ∀ row, row ∈ tail table → row !! 2%nat = Some (VStr student_id) →
    row !! 0%nat = Some VNone.
Proof.
  intros Hrun Hfirst. rewrite <- run_state_pinfo in Hfirst. split.
  - destruct (process_written _ _ _ _ _ Hrun) as (rd & Hrd & -> & _).
    apply mapM_Some in Hrd.
    destruct (Forall2_elem_of_l _ _ _ student_id Hrd) as (r & Hr & Hb).
    { apply elem_of_elements.
      destruct (run_state_consistent fs (sorted glob_result) summary update_mode)
        as [-> _].
      apply elem_of_dom. eauto. }
    apply build_row_spec in Hb as (Hid & Hinfo & _).
    rewrite Hfirst in Hinfo. simpl in Hinfo. injection Hinfo as Hn Hp.
    exists ((VInt <$> r_scores r) ++ [VInt (r_total r)]). simpl.
    apply list_elem_of_fmap. exists r.
    split; [unfold row_cells; simpl; by rewrite Hn, Hp, Hid|].
    by apply elem_of_sort_by.
  - intros row Hrow Hsid.
    destruct (written_row _ _ _ _ _ _ Hrun Hrow) as (r & -> & _ & Hb).
    simpl in Hsid. injection Hsid as Hsid.
    apply build_row_spec in Hb as (_ & Hinfo & _).
    rewrite Hsid, Hfirst in Hinfo. simpl in Hinfo. injection Hinfo as Hn _.
    simpl. by rewrite Hn.
Qed.

(** ** Period labels of file names *)

Lemma prefix_app_r (p r : string) : String.prefix p (p +:+ r) = true.
Proof.
  induction p as [|a p IH]; [by destruct r|].
  change (String a p +:+ r) with (String a (p +:+ r)).
  cbn [String.prefix]. by destruct (ascii_dec a a).
Qed.

Lemma occursb_unfold (pat s : string) :
  occursb pat s =
  String.prefix pat s ||
  match s with
  | EmptyString => false
  | String _ s' => occursb pat s'
  end.
Proof. by destruct s. Qed.

Lemma occurs_occursb (pat s : string) : occurs pat s → occursb pat s = true.
Proof.
  intros (a & b & ->). induction a as [|c a IH].
  - change ("" +:+ pat +:+ b) with (pat +:+ b).
    by rewrite occursb_unfold, prefix_app_r.
  - change (String c a +:+ pat +:+ b) with (String c (a +:+ pat +:+ b)).
    by rewrite occursb_unfold, IH, orb_true_r.
Qed.

Lemma not_occursb_occurs (pat s : string) : occursb pat s = false → ¬ occurs pat s.
Proof. intros H Ho%occurs_occursb. congruence. Qed.

(** C8 (as the code has it): for a file name made of the prefix [S], a
    middle text and the suffix [.xlsx], the period label is the prefix
    followed by the middle text, provided the middle text contains neither
    an [S] nor the text [.xlsx]. *)
Theorem C8_period_key_of_file_name (middle : string) :
  occursb "S" middle = false →
  occursb ".xlsx" middle = false →
  period_key ("S" +:+ middle +:+ ".xlsx") = "S" +:+ middle.
Proof.
  intros HS%not_occursb_occurs Hx%not_occursb_occurs.
  unfold period_key. f_equal.
  rewrite !replace_S_app, (replace_S_id middle) by done.
  change (replace "S" "" "S") with "".
  change (replace "S" "" ".xlsx") with ".xlsx".
  change ("" +:+ middle +:+ ".xlsx") with (middle +:+ ".xlsx").
  by apply replace_xlsx_suffix.
Qed.

Lemma C8_period_key_of_file_name_witness :
  period_key ("S" +:+ "12" +:+ ".xlsx") = "S" +:+ "12".
Proof. apply (C8_period_key_of_file_name "12"); reflexivity. Defined.

(** C8 as stated fails: every [S] of the file name is removed, not only
    the prefix. *)
Lemma C8_counterexample :
  period_key ("S" +:+ "1S" +:+ ".xlsx") ≠ "S" +:+ "1S".
Proof. vm_compute. discriminate. Qed.

(** ** Period columns of the existing summary *)

Lemma elem_of_period_columns_from i fixed headers periods h :
  period_columns_from i fixed headers = Some periods →
  h ∈ periods ↔
  ∃ j, headers !! j = Some (VStr h) ∧ ((i + j)%nat ∉ fixed) ∧
       String.prefix "S" h = true.
Proof.
  revert i periods.
  induction headers as [|[|s|] hs IH]; intros i periods; simpl; try done.
  - intros [= <-]. split; [by intros ?%not_elem_of_nil|].
    by intros (j & ? & _).
  - destruct (period_columns_from (S i) fixed hs) as [rest|] eqn:E;
      simpl; [|done].
    intros [= <-]. specialize (IH (S i) rest E).
    assert (h ∈ rest ↔
            ∃ j, (VStr s :: hs) !! S j = Some (VStr h) ∧
                 ((i + S j)%nat ∉ fixed) ∧ String.prefix "S" h = true) as IH'.
    { rewrite IH. by setoid_rewrite Nat.add_succ_r. }
    clear IH. split.
    + destruct (String.prefix "S" s && negb (bool_decide (i ∈ fixed))) eqn:C.
      * apply andb_true_iff in C as [Hs Hi].
        apply negb_true_iff, bool_decide_eq_false in Hi.
        intros [->|Hin]%elem_of_cons.
        -- exists O. by rewrite Nat.add_0_r.
        -- apply IH' in Hin as (j & ?). by exists (S j).
      * intros Hin. apply IH' in Hin as (j & ?). by exists (S j).
    + intros ([|j] & Hj & Hfix & Hs).
      * simpl in Hj. injection Hj as ->. rewrite Nat.add_0_r in Hfix.
        rewrite Hs, bool_decide_false by done. simpl. constructor.
      * assert (h ∈ rest) by (apply IH'; eauto).
        destruct (_ && _); [by constructor|done].
Qed.


(** ** Reading back a written table *)

Lemma prefix_S_period_key file : String.prefix "S" (period_key file) = true.
Proof. unfold period_key. apply (prefix_app_r "S"). Qed.

Lemma prefix_S_read_existing_summary wb h :
  h ∈ (read_existing_summary wb).2 → String.prefix "S" h = true.
Proof.
  unfold read_existing_summary.
  repeat case_match; simpl; try (by intros ?%not_elem_of_nil).
  intros Hh.
  match goal with H : period_columns_from _ _ _ = Some _ |- _ =>
    apply (elem_of_period_columns_from _ _ _ _ h) in H; apply H in Hh
  end.
  by destruct Hh as (_ & _ & _ & ?).
Qed.

Lemma prefix_S_load_existing summary update_mode h :
  h ∈ (load_existing summary update_mode).2 → String.prefix "S" h = true.
Proof.
  unfold load_existing. destruct summary as [wb|], update_mode; simpl;
    try (by intros ?%not_elem_of_nil).
  apply prefix_S_read_existing_summary.
Qed.

Lemma prefix_S_run_periods fs files summary update_mode h :
  h ∈ run_periods fs files summary update_mode → String.prefix "S" h = true.
Proof.
  intros [H|H]%elem_of_run_periods.
  - by eapply prefix_S_load_existing.
  - apply list_elem_of_fmap in H as (file & -> & _).
    apply prefix_S_period_key.
Qed.

Lemma index_total_periods periods :
  Forall (λ h, String.prefix "S" h = true) periods →
  index (VStr COL_TOTAL) ((VStr <$> periods) ++ [VStr COL_TOTAL])
    = Some (length periods).
Proof.
  induction 1 as [|h periods Hh _ IH]; [done|].
  cbn [fmap list_fmap app index length].
  rewrite decide_False; [|intros [= ->]; discriminate Hh].
  change (list_fmap _ _ VStr periods) with (VStr <$> periods).
  by rewrite IH.
Qed.

Lemma period_columns_from_periods i fixed periods :
  Forall (λ h, String.prefix "S" h = true) periods →
  (∀ j, (j < length periods)%nat → (i + j)%nat ∉ fixed) →
  period_columns_from i fixed ((VStr <$> periods) ++ [VStr COL_TOTAL])
    = Some periods.
Proof.
  intros H. revert i. induction H as [|h periods Hh _ IH]; intros i Hfix.
  - done.
  - cbn [fmap list_fmap app period_columns_from].
    change (list_fmap _ _ VStr periods) with (VStr <$> periods).
    rewrite IH.
    + simpl. rewrite Hh, bool_decide_false; [done|].
      specialize (Hfix O). rewrite Nat.add_0_r in Hfix. apply Hfix. simpl. lia.
    + intros j Hj. replace (S i + j)%nat with (i + S j)%nat by lia.
      apply Hfix. simpl. lia.
Qed.

(** The period columns read back from a written table are its periods. *)
Lemma read_back_periods periods rows :
  Forall (λ h, String.prefix "S" h = true) periods →
  (read_existing_summary (Loaded (header_cells periods :: rows) false)).2
    = periods.
Proof.
  intros H. unfold read_existing_summary, header_cells.
  cbn [fmap list_fmap app index].
  change (list_fmap _ _ VStr (periods ++ [COL_TOTAL]))
    with (VStr <$> (periods ++ [COL_TOTAL])).
  rewrite fmap_app. cbn [fmap list_fmap].
  change (list_fmap _ _ VStr periods) with (VStr <$> periods).
  rewrite decide_True by done.
  rewrite (decide_False (P := VStr COL_NAME = VStr COL_PHONE)) by done.
  rewrite decide_True by done.
  rewrite (decide_False (P := VStr COL_NAME = VStr COL_ID)) by done.
  rewrite (decide_False (P := VStr COL_PHONE = VStr COL_ID)) by done.
  rewrite decide_True by done.
  rewrite (decide_False (P := VStr COL_NAME = VStr COL_TOTAL)) by done.
  rewrite (decide_False (P := VStr COL_PHONE = VStr COL_TOTAL)) by done.
  rewrite (decide_False (P := VStr COL_ID = VStr COL_TOTAL)) by done.
  rewrite index_total_periods by done.
  cbn [fmap option_fmap option_map period_columns_from].
  rewrite period_columns_from_periods; [done..|].
  intros j Hj. rewrite !elem_of_cons, elem_of_nil. lia.
Qed.

(** ** Running twice *)

Section Rerun.
Context (fs : string → workbook) (glob_result : list string)
  (summary : option workbook) (table : list (list value)).
Context (Hrun : process_activity_data fs glob_result summary true = Written table).

Lemma rerun_known :
  (load_existing (Some (Loaded table false)) true).2 =
  run_periods fs (sorted glob_result) summary true.
Proof using Hrun.
  destruct (process_written _ _ _ _ _ Hrun) as (rd & _ & -> & _).
  simpl. apply read_back_periods, Forall_forall.
  intros h. apply prefix_S_run_periods.
Qed.

Lemma rerun_not_consumed file :
  file ∈ sorted glob_result →
  consumed fs (load_existing (Some (Loaded table false)) true).2 true file
    = false.
Proof using Hrun.
  intros Hin. rewrite rerun_known.
  destruct (consumed fs (run_periods _ _ _ _) true file) eqn:Hc; [|done].
  exfalso. unfold consumed, skipped in Hc.
  apply andb_true_iff in Hc as [Hskip Hwf].
  rewrite andb_true_r in Hskip.
  apply negb_true_iff, bool_decide_eq_false in Hskip.
  apply Hskip, elem_of_run_periods.
  destruct (decide (period_key file ∈ (load_existing summary true).2))
    as [|Hnew]; [by left|right].
  apply list_elem_of_fmap. exists file. split; [done|].
  rewrite run_state_processed. apply list_elem_of_filter. split; [|done].
  unfold consumed, skipped. by rewrite bool_decide_false, Hwf.
Qed.

Lemma rerun_processed :
  processed_files
    (run_state fs (sorted glob_result) (Some (Loaded table false)) true) = [].
Proof using Hrun.
  rewrite run_state_processed.
  destruct (filter _ _) as [|file files] eqn:E; [done|].
  assert (file ∈ file :: files) as Hin by constructor.
  rewrite <- E in Hin. apply list_elem_of_filter in Hin as [Hc Hin].
  rewrite rerun_not_consumed in Hc; done.
Qed.

Lemma rerun_outcome :
  let second :=
    process_activity_data fs glob_result (Some (Loaded table false)) true in
  second = NothingRead ∨ second = NothingNew.
Proof using Hrun.
  cbv zeta. rewrite process_activity_data_eq.
  destruct (sorted glob_result) as [|file files] eqn:Hfiles.
  - rewrite process_activity_data_eq, Hfiles in Hrun. done.
  - cbv zeta. rewrite <- Hfiles, rerun_processed. case_decide; auto.
Qed.

Lemma rerun_labels_known file :
  file ∈ processed_files (run_state fs (sorted glob_result) summary true) →
  period_key file ∈ (load_existing (Some (Loaded table false)) true).2.
Proof using Hrun.
  intros Hin. rewrite rerun_known. apply elem_of_run_periods. right.
  apply list_elem_of_fmap. eauto.
Qed.
End Rerun.

(** C3 (as the code has it): running twice in update mode on the same files
    leaves the summary file as the first run left it.  When the first run
    wrote a table, the period of every file it consumed is known to the
    second run, the second run consumes no file (a file rejected by the
    first run is rejected again) and ends at one of the two early returns,
    without writing. *)
Theorem C3_second_run_changes_nothing fs glob_result summary :
  let first := process_activity_data fs glob_result summary true in
  let second :=
    process_activity_data fs glob_result (summary_after summary first) true in
  summary_after (summary_after summary first) second
    = summary_after summary first ∧
  ∀ table, first = Written table →
    (∀ file,
       file ∈ processed_files (run_state fs (sorted glob_result) summary true) →
       period_key file ∈ (load_existing (summary_after summary first) true).2) ∧
    processed_files
      (run_state fs (sorted glob_result) (summary_after summary first) true)
      = [] ∧
    (second = NothingRead ∨ second = NothingNew).
Proof.
  cbv zeta.
  destruct (process_activity_data fs glob_result summary true) as [| | | |table]
    eqn:Hrun; simpl; try (rewrite Hrun; split; [done|intros ? [=]]).
  pose proof (rerun_outcome fs glob_result summary table Hrun) as Hout.
  cbv zeta in Hout. split.
  - by destruct Hout as [-> | ->].
  - intros ? [= <-]. split_and!; [|by eapply rerun_processed|done].
    intros file. by apply rerun_labels_known.
Qed.

(** ** The properties on the examples *)

Lemma C1_failing_file_skipped_witness :
  run_state Samples.fs_bad (["S1.xlsx"; "S2.xlsx"] ++ "S3.xlsx" :: []) None true =
    run_state Samples.fs_bad (["S1.xlsx"; "S2.xlsx"] ++ []) None true ∧
  ("S3.xlsx" ∉ processed_files
     (run_state Samples.fs_bad (["S1.xlsx"; "S2.xlsx"] ++ "S3.xlsx" :: []) None true)) ∧
  scores_within
    (λ p, p ∈ run_periods Samples.fs_bad
                (["S1.xlsx"; "S2.xlsx"] ++ "S3.xlsx" :: []) None true)
    (all_data (run_state Samples.fs_bad
                 (["S1.xlsx"; "S2.xlsx"] ++ "S3.xlsx" :: []) None true)).
Proof.
  apply (C1_failing_file_skipped Samples.fs_bad ["S1.xlsx"; "S2.xlsx"]
           "S3.xlsx" [] None true).
  vm_compute. exact I.
Defined.

Lemma C7_missing_column_rejected_witness :
  run_state Samples.fs_bad (["S1.xlsx"] ++ "S2.xlsx" :: ["S3.xlsx"]) None true =
    run_state Samples.fs_bad (["S1.xlsx"] ++ ["S3.xlsx"]) None true ∧
  ("S2.xlsx" ∉ processed_files
     (run_state Samples.fs_bad (["S1.xlsx"] ++ "S2.xlsx" :: ["S3.xlsx"]) None true)) ∧
  ∀ other,
    other ∈ ["S1.xlsx"] ++ ["S3.xlsx"] →
    well_formed (Samples.fs_bad other) = true →
    skipped (load_existing None true).2 true other = false →
    other ∈ processed_files
      (run_state Samples.fs_bad (["S1.xlsx"] ++ "S2.xlsx" :: ["S3.xlsx"]) None true).
Proof.
  apply (C7_missing_column_rejected Samples.fs_bad ["S1.xlsx"] "S2.xlsx"
           ["S3.xlsx"] None true
           [VStr COL_NAME; VStr COL_PHONE; VStr COL_TOTAL]
           [[VStr "C"; VNone; VInt 10]] false COL_ID).
  - reflexivity.
  - apply (bool_decide_unpack _). vm_compute. exact I.
  - apply (bool_decide_unpack _). vm_compute. exact I.
Defined.

Lemma C4_first_write_wins_witness :
  (∀ row, row ∈ tail Samples.table →
     ∃ student_id name phone rest,
       row = name :: phone :: VStr student_id :: rest ∧
       first_sighting Samples.fs (sorted ["S2.xlsx"; "S1.xlsx"]) None true
         student_id = Some (name, phone)) ∧
  (∀ student_id name phone,
     first_sighting Samples.fs (sorted ["S2.xlsx"; "S1.xlsx"]) None true
       student_id = Some (name, phone) →
     ∃ rest, name :: phone :: VStr student_id :: rest ∈ tail Samples.table).
Proof.
  apply (C4_first_write_wins Samples.fs ["S2.xlsx"; "S1.xlsx"] None true).
  vm_compute. reflexivity.
Defined.

Lemma C5_total_is_sum_witness :
  head Samples.table =
    Some (header_cells
            (run_periods Samples.fs (sorted ["S2.xlsx"; "S1.xlsx"]) None true)) ∧
  ∀ row, row ∈ tail Samples.table →
    ∃ student_id name phone zs,
      row = [name; phone; VStr student_id] ++ (VInt <$> zs)
              ++ [VInt (sum_scores zs)] ∧
      Forall2
        (λ period z,
           match score_entry
                   (run_state Samples.fs (sorted ["S2.xlsx"; "S1.xlsx"]) None true)
                   student_id period with
           | Some v => v = VInt z
           | None => z = 0
           end)
        (run_periods Samples.fs (sorted ["S2.xlsx"; "S1.xlsx"]) None true) zs.
Proof.
  apply (C5_total_is_sum Samples.fs ["S2.xlsx"; "S1.xlsx"] None true).
  vm_compute. reflexivity.
Defined.

Lemma C6_rows_sorted_by_total_witness :
  (∀ row, row ∈ tail Samples.table → ∃ z, last row = Some (VInt z)) ∧
  StronglySorted (λ above below, total_cell below ≤ total_cell above)
    (tail Samples.table).
Proof.
  apply (C6_rows_sorted_by_total Samples.fs ["S2.xlsx"; "S1.xlsx"] None true).
  vm_compute. reflexivity.
Defined.

Lemma C9_absent_name_stays_absent_witness :
  (∃ rest, VNone :: VInt 555 :: VStr "7" :: rest ∈ tail Samples.table_gaps) ∧
  ∀ row, row ∈ tail Samples.table_gaps → row !! 2%nat = Some (VStr "7") →
    row !! 0%nat = Some VNone.
Proof.
  apply (C9_absent_name_stays_absent Samples.fs_gaps ["S1.xlsx"] None true).
  - vm_compute. reflexivity.
  - vm_compute. reflexivity.
Defined.

(** C9 as stated fails: the row of [S1_gaps] without a name is written
    with an empty name cell, not with the "unknown" text. *)
Lemma C9_counterexample :
  process_activity_data Samples.fs_gaps ["S1.xlsx"] None true
    = Written Samples.table_gaps ∧
  [VNone; VInt 555; VStr "7"; VInt 5; VInt 5] ∈ tail Samples.table_gaps ∧
  VNone ≠ VStr UNKNOWN.
Proof.
  split_and!; [vm_compute; reflexivity|constructor|discriminate].
Qed.

Lemma C3_second_run_changes_nothing_witness :
  let first := process_activity_data Samples.fs ["S2.xlsx"; "S1.xlsx"] None true in
  let second :=
    process_activity_data Samples.fs ["S2.xlsx"; "S1.xlsx"]
      (summary_after None first) true in
  summary_after (summary_after None first) second = summary_after None first ∧
  ∀ table, first = Written table →
    (∀ file,
       file ∈ processed_files
                (run_state Samples.fs (sorted ["S2.xlsx"; "S1.xlsx"]) None true) →
       period_key file ∈ (load_existing (summary_after None first) true).2) ∧
    processed_files
      (run_state Samples.fs (sorted ["S2.xlsx"; "S1.xlsx"])
         (summary_after None first) true) = [] ∧
    (second = NothingRead ∨ second = NothingNew).
Proof.
  exact (C3_second_run_changes_nothing Samples.fs ["S2.xlsx"; "S1.xlsx"] None).
Defined.

(** C3 as stated fails: [S2.xlsx] lacks the id column, so the first run
    writes a table with the period [S1] only, and in the second run the
    period of [S2.xlsx] is not a known one. *)
Lemma C3_counterexample :
  process_activity_data Samples.fs_bad ["S1.xlsx"; "S2.xlsx"] None true
    = Written Samples.table_bad ∧
  period_key "S2.xlsx" ∉
    (load_existing (Some (Loaded Samples.table_bad false)) true).2.
Proof.
  split; [vm_compute; reflexivity|].
  apply (bool_decide_unpack _). vm_compute. exact I.
Qed.

(** C2, on the code: a row whose id cell is empty is not skipped.  [str]
    turns the empty cell into the text [None], which is not empty, so the
    row of [S1_gaps] without an id is written as participant "None", and the
    row of [summary_extra] without an id is loaded under that key. *)
Theorem C2_absent_identifier_not_skipped :
  process_activity_data Samples.fs_gaps ["S1.xlsx"] None true
    = Written Samples.table_gaps ∧
  [VStr "D"; VNone; VStr "None"; VInt 3; VInt 3] ∈ tail Samples.table_gaps ∧
  is_Some ((read_existing_summary Samples.summary_extra).1 !! "None").
Proof.
  split_and!; [vm_compute; reflexivity|repeat constructor|].
  vm_compute. eauto.
Qed.

(** * Further properties *)

(** ** Labels *)

(** X1: an [S] anywhere in a file name does not show in its period label: two
    names that differ only by [S] characters are files of the same period. *)
Theorem period_key_ignores_S (a b : string) :
  period_key (a +:+ "S" +:+ b) = period_key (a +:+ b).
Proof.
  unfold period_key. by rewrite !replace_S_app.
Qed.

(** ** The participants and the shape of the table *)

Lemma first_info_is_Some l student_id :
  is_Some (first_info l student_id) ↔ student_id ∈ l.*1.
Proof.
  induction l as [|[k i] l IH]; simpl.
  - split; [by intros [? ?]|by intros ?%not_elem_of_nil].
  - destruct (decide (k = student_id)) as [->|Hne].
    + split; [intros _; constructor|eauto].
    + rewrite IH. simpl. rewrite elem_of_cons.
      split; [by right|]. by intros [->|?].
Qed.

(** X2: the participants of a run are those of the loaded summary and those
    sighted in a consumed file, and no others. *)
Theorem participants_are_union fs files summary update_mode student_id :
  student_id ∈ all_participants (run_state fs files summary update_mode) ↔
  student_id ∈ dom (load_existing summary update_mode).1 ∨
  student_id ∈
    (sightings fs (processed_files (run_state fs files summary update_mode))).*1.
Proof.
  destruct (run_state_consistent fs files summary update_mode) as [-> _].
  rewrite elem_of_dom, run_state_pinfo. unfold first_sighting.
  rewrite elem_of_dom, <- first_info_is_Some.
  destruct ((load_existing summary update_mode).1 !! student_id) as [d|].
  - split; [left|]; eauto.
  - split; [by right|]. by intros [[? [=]]|?].
Qed.

Lemma build_rows_ids periods st ids result_data :
  mapM (build_row periods st) ids = Some result_data →
  r_id <$> result_data = ids.
Proof.
  intros H%mapM_Some. induction H as [|sid r ids rd Hb _ IH]; [done|].
  apply build_row_spec in Hb as (Hid & _). by rewrite fmap_cons, Hid, IH.
Qed.

(** X3: a written table has one data row for each participant, and no other
    row: the id cells of its rows are the participants, each once. *)
Theorem one_row_per_participant fs glob_result summary update_mode table :
  process_activity_data fs glob_result summary update_mode = Written table →
  ∃ ids,
    (λ row : list value, row !! 2%nat) <$> tail table
      = (λ student_id, Some (VStr student_id)) <$> ids ∧
    NoDup ids ∧
    ∀ student_id,
      student_id ∈ ids ↔
      student_id ∈
        all_participants (run_state fs (sorted glob_result) summary update_mode).
Proof.
  intros (rd & Hrd & -> & _)%process_written.
  apply build_rows_ids in Hrd.
  assert (r_id <$> sort_rows rd ≡ₚ
          elements (all_participants
            (run_state fs (sorted glob_result) summary update_mode))) as Hperm.
  { rewrite <- Hrd. apply fmap_Permutation, sort_by_perm. }
  exists (r_id <$> sort_rows rd). split_and!.
  - simpl. rewrite <- !list_fmap_compose. by apply list_fmap_ext.
  - rewrite Hperm. apply NoDup_elements.
  - intros sid. by rewrite Hperm, elem_of_elements.
Qed.

Lemma one_row_per_participant_witness :
  ∃ ids,
    (λ row : list value, row !! 2%nat) <$> tail Samples.table
      = (λ student_id, Some (VStr student_id)) <$> ids ∧
    NoDup ids ∧
    ∀ student_id,
      student_id ∈ ids ↔
      student_id ∈
        all_participants
          (run_state Samples.fs (sorted ["S2.xlsx"; "S1.xlsx"]) None true).
Proof.
  apply (one_row_per_participant Samples.fs ["S2.xlsx"; "S1.xlsx"] None true).
  vm_compute. reflexivity.
Defined.

(** X4: a written table is a full grid: the header and every data row have
    three identity cells, one cell for each known period and a total. *)
Theorem table_is_rectangular fs glob_result summary update_mode table :
  process_activity_data fs glob_result summary update_mode = Written table →
  Forall
    (λ row : list value,
       length row =
       (4 + length (run_periods fs (sorted glob_result) summary update_mode))%nat)
    table.
Proof.
  intros Hrun. pose proof Hrun as (rd & _ & Htable & _)%process_written.
  rewrite Htable. constructor.
  - unfold header_cells. rewrite length_fmap. simpl.
    rewrite length_app. simpl. lia.
  - apply Forall_forall. intros row Hrow.
    destruct (written_row _ _ _ _ _ row Hrun) as (r & -> & _ & Hb).
    { by rewrite Htable. }
    apply build_row_spec in Hb as (_ & _ & Hzs%Forall2_length & _).
    unfold row_cells. simpl. rewrite length_app, length_fmap. simpl. lia.
Qed.

Lemma table_is_rectangular_witness :
  Forall
    (λ row : list value,
       length row =
       (4 + length (run_periods Samples.fs (sorted ["S2.xlsx"; "S1.xlsx"])
                      None true))%nat)
    Samples.table.
Proof.
  apply (table_is_rectangular Samples.fs ["S2.xlsx"; "S1.xlsx"] None true).
  vm_compute. reflexivity.
Defined.

(** ** The period columns *)

Section SortLocal.
Context {A : Type} (le : A → A → bool).
Context (le_total : ∀ x y, le x y = true ∨ le y x = true).

Lemma insert_by_Sorted (x : A) (l : list A) :
  Sorted (λ a b, le a b = true) l →
  Sorted (λ a b, le a b = true) (insert_by le x l).
Proof.
  induction 1 as [|y l Hs IH Hy]; simpl.
  - repeat constructor.
  - destruct (le x y) eqn:Hxy.
    + constructor; [by constructor|by constructor].
    + constructor; [done|].
      destruct l as [|z l]; simpl.
      * constructor. destruct (le_total x y); congruence.
      * destruct (le x z).
        -- constructor. destruct (le_total x y); congruence.
        -- constructor. by inversion Hy.
Qed.

Lemma sort_by_Sorted (l : list A) :
  Sorted (λ a b, le a b = true) (sort_by le l).
Proof.
  induction l as [|x l IH]; simpl; [constructor|]. by apply insert_by_Sorted.
Qed.
End SortLocal.

(** X5: the known periods of a run, which are the period columns of the table
    it writes, are the period columns of the loaded summary and the labels
    of the consumed files; the list has no duplicate and is in ascending
    order. *)
Theorem periods_sorted_distinct fs files summary update_mode :
  NoDup (run_periods fs files summary update_mode) ∧
  Sorted (λ a b, String.leb a b = true)
    (run_periods fs files summary update_mode) ∧
  ∀ period,
    period ∈ run_periods fs files summary update_mode ↔
    period ∈ (load_existing summary update_mode).2 ∨
    ∃ file,
      file ∈ processed_files (run_state fs files summary update_mode) ∧
      period = period_key file.
Proof.
  split_and!.
  - unfold run_periods, all_periods_of, sorted_set, sorted.
    rewrite sort_by_perm. apply NoDup_elements.
  - apply sort_by_Sorted, String.leb_total.
  - intros period. rewrite elem_of_run_periods, list_elem_of_fmap.
    split; (intros [?|(file & ? & ?)]; [by left|right; eauto]).
Qed.

(** ** The recorded scores *)

Lemma last_record_app {A} (l1 l2 : list (string * A)) student_id :
  last_record (l1 ++ l2) student_id =
  match last_record l2 student_id with
  | Some v => Some v
  | None => last_record l1 student_id
  end.
Proof.
  induction l1 as [|[k v] l1 IH]; simpl.
  - by destruct (last_record l2 student_id).
  - rewrite IH. by destruct (last_record l2 student_id).
Qed.

Lemma score_ingest_row pk ni pi ii si st row student_id period :
  score_entry (ingest_row pk ni pi ii si st row) student_id period =
  match row_score ni pi ii si row with
  | Some (k, v) =>
      if decide (k = student_id ∧ pk = period) then Some v
      else score_entry st student_id period
  | None => score_entry st student_id period
  end.
Proof.
  unfold ingest_row, row_score, score_entry.
  destruct (length row <=? max4 ni pi ii si)%nat; [done|].
  destruct (decide (str (cell row ii) = "")); [done|]. simpl.
  set (sid := str (cell row ii)). set (v := or_zero (cell row si)).
  rewrite lookup_alter.
  destruct (decide (sid = student_id)) as [<-|Hne].
  - destruct (all_data st !! sid) as [d|] eqn:E.
    + rewrite E. simpl. destruct (decide (pk = period)) as [<-|Hp].
      * rewrite decide_True by done. by rewrite lookup_insert_eq.
      * rewrite decide_False by tauto. by rewrite lookup_insert_ne.
    + rewrite lookup_insert_eq. simpl.
      destruct (decide (pk = period)) as [<-|Hp].
      * rewrite decide_True by done. by rewrite lookup_insert_eq.
      * rewrite decide_False by tauto. by rewrite lookup_insert_ne.
  - rewrite decide_False by tauto.
    destruct (all_data st !! sid); [done|]. by rewrite lookup_insert_ne.
Qed.

Lemma score_ingest_rows pk ni pi ii si rows st student_id period :
  score_entry (foldl (ingest_row pk ni pi ii si) st rows) student_id period =
  if decide (pk = period) then
    match last_record (omap (row_score ni pi ii si) rows) student_id with
    | Some v => Some v
    | None => score_entry st student_id period
    end
  else score_entry st student_id period.
Proof.
  revert st. induction rows as [|row rows IH]; intros st; simpl.
  { by destruct (decide (pk = period)). }
  rewrite IH, score_ingest_row.
  destruct (decide (pk = period)) as [->|Hp].
  - destruct (row_score ni pi ii si row) as [[k v]|]; simpl; [|done].
    destruct (last_record _ student_id); [done|].
    destruct (decide (k = student_id)).
    + by rewrite decide_True.
    + by rewrite decide_False by tauto.
  - destruct (row_score ni pi ii si row) as [[k v]|]; [|done].
    by rewrite decide_False by tauto.
Qed.

Lemma score_ingest_files fs existing_periods update_mode files st
    student_id period :
  score_entry (ingest_files fs existing_periods update_mode st files)
    student_id period =
  match last_record
          (period_scores fs period
             (filter (λ f, consumed fs existing_periods update_mode f = true)
                files))
          student_id with
  | Some v => Some v
  | None => score_entry st student_id period
  end.
Proof.
  revert st. induction files as [|file files IH]; intros st; [done|].
  rewrite ingest_files_cons, IH.
  destruct (consumed fs existing_periods update_mode file) eqn:Hc.
  - rewrite filter_cons_True by done.
    rewrite ingest_file_consumed by done. unfold period_scores.
    change (score_entry (add_processed file ?s)) with (score_entry s).
    unfold ingest_rows. rewrite score_ingest_rows.
    destruct (decide (period_key file = period)) as [Hp|Hp].
    + rewrite filter_cons_True by done. rewrite bind_cons, last_record_app.
      by destruct (last_record (filter _ _ ≫= _) student_id).
    + by rewrite filter_cons_False by done.
  - rewrite filter_cons_False by congruence.
    by rewrite ingest_file_not_consumed.
Qed.

(** X6: the score recorded after the file loop for a participant and a period
    is the one of the last row with that id in the last consumed file with
    that label, if there is one (a later row or file replaces the score of
    an earlier one with the same label), and otherwise the score loaded
    from the summary. *)
Theorem score_last_write_wins fs files summary update_mode student_id period :
  score_entry (run_state fs files summary update_mode) student_id period =
  match last_record
          (period_scores fs period
             (processed_files (run_state fs files summary update_mode)))
          student_id with
  | Some v => Some v
  | None =>
      (load_existing summary update_mode).1 !! student_id
        ≫= λ d, scores d !! period
  end.
Proof.
  rewrite run_state_processed, run_state_eq. apply score_ingest_files.
Qed.

(** X7: in update mode a score loaded from the summary is never changed: for
    a period column of the summary, the score recorded after the file loop
    is the loaded one, and a participant who is new in this run has none. *)
Theorem update_keeps_loaded_scores fs files summary student_id period :
  period ∈ (load_existing summary true).2 →
  score_entry (run_state fs files summary true) student_id period =
  (load_existing summary true).1 !! student_id ≫= λ d, scores d !! period.
Proof.
  intros Hperiod. rewrite run_state_eq, score_ingest_files.
  replace (period_scores fs period _) with (@nil (string * value)); [done|].
  unfold period_scores.
  induction files as [|file files IH]; [done|].
  destruct (consumed fs (load_existing summary true).2 true file) eqn:Hc.
  - rewrite filter_cons_True by done.
    rewrite filter_cons_False; [done|]. intros <-.
    unfold consumed, skipped in Hc.
    by rewrite bool_decide_true in Hc.
  - by rewrite filter_cons_False by congruence.
Qed.

Lemma update_keeps_loaded_scores_witness :
  score_entry (run_state Samples.fs ["S2.xlsx"] (Some Samples.summary_extra) true)
    "100" "S1" =
  (load_existing (Some Samples.summary_extra) true).1 !! "100"
    ≫= λ d, scores d !! "S1".
Proof.
  apply (update_keeps_loaded_scores Samples.fs ["S2.xlsx"]
           (Some Samples.summary_extra) "100" "S1").
  apply (bool_decide_unpack _). vm_compute. exact I.
Defined.

(** ** When a table is written *)

Lemma add_period_is_Some student_scores periods acc :
  is_Some (foldl (add_period student_scores) (Some acc) periods) ↔
  Forall (λ p, is_number (default (VInt 0) (student_scores !! p))) periods.
Proof.
  revert acc. induction periods as [|p periods IH]; intros [cells total]; simpl.
  - split; [constructor|eauto].
  - rewrite Forall_cons.
    destruct (default (VInt 0) (student_scores !! p)) as [| |z] eqn:E.
    + rewrite add_period_None. split; [by intros [? ?]|by intros [[? ?] _]].
    + rewrite add_period_None. split; [by intros [? ?]|by intros [[? ?] _]].
    + rewrite IH. split; [intros ?; split; [by eexists|done]|by intros [_ ?]].
Qed.

Lemma build_row_is_Some periods st student_id :
  is_Some (build_row periods st student_id) ↔
  Forall (λ p, is_number (score_or_zero st student_id p)) periods.
Proof.
  unfold build_row.
  set (student_scores := match all_data st !! student_id with
                         | Some d => scores d
                         | None => ∅
                         end).
  transitivity
    (is_Some (foldl (add_period student_scores) (Some ([], 0)) periods)).
  { destruct (foldl _ _ periods) as [[cells total]|]; simpl.
    - split; eauto.
    - split; by intros [? ?]. }
  rewrite add_period_is_Some. apply Forall_iff. intros p.
  unfold score_or_zero, score_entry, student_scores.
  destruct (all_data st !! student_id); simpl; [done|].
  by rewrite lookup_empty.
Qed.

Lemma numeric_scores_build st periods :
  numeric_scores st periods ↔
  is_Some (mapM (build_row periods st) (elements (all_participants st))).
Proof.
  unfold numeric_scores. rewrite mapM_is_Some, Forall_forall. split.
  - intros H sid Hsid%elem_of_elements. apply build_row_is_Some.
    apply Forall_forall. intros p Hp. unfold score_or_zero.
    destruct (score_entry st sid p) as [v|] eqn:E; simpl; [eauto|by eexists].
  - intros H sid p v Hsid%elem_of_elements Hp Hv.
    apply H, build_row_is_Some in Hsid.
    rewrite Forall_forall in Hsid. specialize (Hsid p Hp).
    unfold score_or_zero in Hsid. by rewrite Hv in Hsid.
Qed.

(** X8: a run writes a table exactly when it consumed a file and every score
    recorded for a participant in a known period is a number; when it
    consumed a file and one of these scores is not a number, it ends with
    the TypeError of the total, and nothing is written. *)
Theorem written_iff_numeric fs glob_result summary update_mode :
  let st := run_state fs (sorted glob_result) summary update_mode in
  let periods := run_periods fs (sorted glob_result) summary update_mode in
  ((∃ table,
      process_activity_data fs glob_result summary update_mode = Written table) ↔
   processed_files st ≠ [] ∧ numeric_scores st periods) ∧
  (process_activity_data fs glob_result summary update_mode = TypeError ↔
   processed_files st ≠ [] ∧ ¬ numeric_scores st periods).
Proof.
  cbv zeta. rewrite process_activity_data_eq, !numeric_scores_build.
  destruct (sorted glob_result) as [|file files] eqn:Hfiles.
  { assert (processed_files (run_state fs [] summary update_mode) = [])
      as -> by (by rewrite run_state_processed).
    split; (split; [|by intros [? _]]); [by intros [? ?]|done]. }
  cbv zeta. rewrite <- Hfiles.
  destruct (processed_files _) as [|f fs'] eqn:Hp.
  { split; (split; [|by intros [? _]]).
    - intros [table ?]. by case_decide.
    - by case_decide. }
  destruct (mapM _ _) as [rd|] eqn:Hrd.
  - split; split.
    + intros _. split; [done|]. eauto.
    + eauto.
    + done.
    + intros [_ H]. destruct H. eauto.
  - split; split.
    + by intros [? ?].
    + by intros [_ [? ?]].
    + intros _. split; [done|]. by intros [? ?].
    + done.
Qed.

(** ** Empty score cells *)

Lemma or_zero_not_none v : or_zero v ≠ VNone.
Proof. by destruct v. Qed.

Lemma last_record_elem {A} (l : list (string * A)) student_id v :
  last_record l student_id = Some v → (student_id, v) ∈ l.
Proof.
  induction l as [|[k w] l IH]; simpl; [done|].
  destruct (last_record l student_id) as [u|].
  - intros [= <-]. right. by apply IH.
  - destruct (decide (k = student_id)) as [->|]; [|done].
    intros [= <-]. left.
Qed.

Lemma file_scores_not_none wb student_id v :
  (student_id, v) ∈ file_scores wb → v ≠ VNone.
Proof.
  unfold file_scores. intros (row & _ & Hrow)%list_elem_of_omap.
  unfold row_score in Hrow. repeat case_match; simplify_eq.
  apply or_zero_not_none.
Qed.

Lemma load_score_not_none headers row periods sc p :
  sc !! p ≠ Some VNone →
  foldl (load_score headers row) sc periods !! p ≠ Some VNone.
Proof.
  revert sc. induction periods as [|q periods IH]; intros sc Hsc; [done|].
  simpl. apply IH. unfold load_score.
  destruct (index (VStr q) headers) as [i|]; [|done].
  destruct (i <? length row)%nat; [|done].
  destruct (decide (q = p)) as [->|].
  - rewrite lookup_insert_eq. intros [= H]. by apply or_zero_not_none in H.
  - by rewrite lookup_insert_ne.
Qed.

Lemma load_rows_not_none headers periods ni pi ii ti rows data :
  (∀ sid d p, data !! sid = Some d → scores d !! p ≠ Some VNone) →
  ∀ sid d p,
    foldl (load_row headers periods ni pi ii ti) data rows !! sid = Some d →
    scores d !! p ≠ Some VNone.
Proof.
  revert data. induction rows as [|row rows IH]; intros data Hdata; [done|].
  simpl. apply IH. unfold load_row.
  destruct (length row <=? max4 ni pi ii ti)%nat; [done|].
  destruct (decide (str (cell row ii) = "")); [done|].
  intros sid d p. destruct (decide (str (cell row ii) = sid)) as [<-|].
  - rewrite lookup_insert_eq. intros [= <-]. simpl.
    apply load_score_not_none. by rewrite lookup_empty.
  - rewrite lookup_insert_ne by done. apply Hdata.
Qed.

Lemma load_existing_not_none summary update_mode sid d p :
  (load_existing summary update_mode).1 !! sid = Some d →
  scores d !! p ≠ Some VNone.
Proof.
  unfold load_existing, read_existing_summary.
  repeat case_match; simpl; try (by rewrite lookup_empty).
  apply load_rows_not_none. intros ???. by rewrite lookup_empty.
Qed.

(** ** A summary that cannot be used *)

Lemma index_not_elem (x : value) (headers : list value) :
  x ∉ headers → index x headers = None.
Proof.
  induction headers as [|h hs IH]; simpl; [done|].
  rewrite not_elem_of_cons. intros [Hne Hhs].
  rewrite decide_False by done. by rewrite IH.
Qed.

Lemma period_columns_from_not_text i fixed headers :
  Exists (λ h, ¬ is_text h) headers →
  period_columns_from i fixed headers = None.
Proof.
  intros H. revert i. induction H as [h hs Hh|h hs _ IH]; intros i; simpl.
  - destruct h as [|s|n]; try done. destruct Hh. by eexists.
  - destruct h as [|s|n]; try done. by rewrite IH.
Qed.

Lemma read_existing_summary_rejected wb :
  summary_rejected wb → read_existing_summary wb = (∅, []).
Proof.
  unfold summary_rejected, read_existing_summary.
  destruct wb as [|[|headers data] broken]; [done..|].
  intros [->|[(col & Hcol & Hmiss)|Htext]].
  - by repeat case_match.
  - apply index_not_elem in Hmiss.
    unfold required_columns in Hcol.
    rewrite !elem_of_cons, elem_of_nil in Hcol.
    destruct Hcol as [->|[->|[->|[->|[]]]]]; rewrite Hmiss;
      by repeat case_match.
  - repeat case_match; try done.
    all: by rewrite period_columns_from_not_text in * by done.
Qed.

(** X10: a summary that cannot be used is passed over without an error: the
    loader returns no participant and no period, and the run is the run
    without a summary file.  One header cell that is empty or holds a
    number is enough for that. *)
Theorem rejected_summary_is_ignored fs glob_result wb update_mode :
  summary_rejected wb →
  read_existing_summary wb = (∅, []) ∧
  process_activity_data fs glob_result (Some wb) update_mode =
  process_activity_data fs glob_result None update_mode.
Proof.
  intros H%read_existing_summary_rejected. split; [done|].
  unfold process_activity_data, load_existing. rewrite H.
  by destruct update_mode.
Qed.

(** ** Files of a known period *)

Lemma ingest_file_ext fs fs' existing_periods update_mode st file :
  skipped existing_periods update_mode file = true ∨ fs file = fs' file →
  ingest_file fs existing_periods update_mode st file =
  ingest_file fs' existing_periods update_mode st file.
Proof.
  unfold ingest_file, skipped. by intros [Hs|Hf]; [rewrite Hs|rewrite Hf].
Qed.

Lemma ingest_files_ext fs fs' existing_periods update_mode files st :
  (∀ file, file ∈ files →
     skipped existing_periods update_mode file = true ∨ fs file = fs' file) →
  ingest_files fs existing_periods update_mode st files =
  ingest_files fs' existing_periods update_mode st files.
Proof.
  revert st. induction files as [|file files IH]; intros st H; [done|].
  rewrite !ingest_files_cons.
  rewrite (ingest_file_ext fs fs') by (apply H; constructor).
  apply IH. intros f Hf. apply H. by constructor.
Qed.

(** X11: in update mode a file whose period is a period column of the summary
    is not read: the outcome of the run is the same whatever that file
    holds, also when it was corrected since it was first ingested. *)
Theorem known_period_file_not_read fs fs' glob_result summary :
  (∀ file, file ∈ glob_result →
     period_key file ∉ (load_existing summary true).2 → fs file = fs' file) →
  process_activity_data fs glob_result summary true =
  process_activity_data fs' glob_result summary true.
Proof.
  intros H.
  assert (run_state fs (sorted glob_result) summary true =
          run_state fs' (sorted glob_result) summary true) as Hst.
  { rewrite !run_state_eq. apply ingest_files_ext. intros file Hin.
    apply elem_of_sort_by in Hin. unfold skipped. rewrite andb_true_r.
    destruct (decide (period_key file ∈ (load_existing summary true).2)).
    - left. by apply bool_decide_eq_true.
    - right. by apply H. }
  rewrite !process_activity_data_eq. unfold run_periods. by rewrite Hst.
Qed.

(** ** Rows of the summary with the same id *)

Lemma load_row_entry headers periods ni pi ii ti data row student_id :
  load_row headers periods ni pi ii ti data row !! student_id =
  match load_entry headers periods ni pi ii ti row with
  | Some (k, d) => if decide (k = student_id) then Some d else data !! student_id
  | None => data !! student_id
  end.
Proof.
  unfold load_row, load_entry.
  destruct (length row <=? max4 ni pi ii ti)%nat; [done|].
  destruct (decide (str (cell row ii) = "")); [done|].
  destruct (decide (str (cell row ii) = student_id)) as [<-|].
  - by rewrite lookup_insert_eq.
  - by rewrite lookup_insert_ne.
Qed.

Lemma load_rows_last headers periods ni pi ii ti rows data student_id :
  foldl (load_row headers periods ni pi ii ti) data rows !! student_id =
  match last_record (omap (load_entry headers periods ni pi ii ti) rows)
          student_id with
  | Some d => Some d
  | None => data !! student_id
  end.
Proof.
  revert data. induction rows as [|row rows IH]; intros data; [done|].
  simpl. rewrite IH, load_row_entry.
  destruct (load_entry headers periods ni pi ii ti row) as [[k d]|]; simpl;
    [|done].
  destruct (last_record _ student_id); [done|].
  by destruct (decide (k = student_id)).
Qed.

(** X12: when the summary has two rows with the same id, the loader keeps the
    record of the later row, name and contact included: the loaded record
    of an id is the one of the last row that carries it. *)
Theorem summary_last_row_wins headers data ni pi ii ti periods student_id :
  index (VStr COL_NAME) headers = Some ni →
  index (VStr COL_PHONE) headers = Some pi →
  index (VStr COL_ID) headers = Some ii →
  index (VStr COL_TOTAL) headers = Some ti →
  period_columns_from 0 [ni; pi; ii; ti] headers = Some periods →
  (read_existing_summary (Loaded (headers :: data) false)).1 !! student_id =
  last_record (omap (load_entry headers periods ni pi ii ti) data) student_id.
Proof.
  intros Hn Hp Hi Ht Hper. unfold read_existing_summary.
  rewrite Hn, Hp, Hi, Ht, Hper. simpl. rewrite load_rows_last.
  by destruct (last_record _ student_id).
Qed.

(** ** The empty id *)

Lemma load_rows_no_empty_id headers periods ni pi ii ti rows data :
  data !! "" = None →
  foldl (load_row headers periods ni pi ii ti) data rows !! "" = None.
Proof.
  revert data. induction rows as [|row rows IH]; intros data Hdata; [done|].
  simpl. apply IH. unfold load_row.
  destruct (length row <=? max4 ni pi ii ti)%nat; [done|].
  destruct (decide (str (cell row ii) = "")); [done|].
  by rewrite lookup_insert_ne.
Qed.

Lemma load_existing_no_empty_id summary update_mode :
  (load_existing summary update_mode).1 !! "" = None.
Proof.
  unfold load_existing, read_existing_summary.
  repeat case_match; simpl; try apply lookup_empty.
  apply load_rows_no_empty_id, lookup_empty.
Qed.

Lemma sightings_no_empty_id fs files : "" ∉ (sightings fs files).*1.
Proof.
  intros ([k i] & Hk & Hin)%list_elem_of_fmap. simpl in Hk. subst k.
  unfold sightings in Hin. apply list_elem_of_bind in Hin as (file & Hin & _).
  unfold file_identities in Hin.
  apply list_elem_of_omap in Hin as (row & _ & Hrow).
  unfold row_identity in Hrow. repeat case_match; simplify_eq.
Qed.

Lemma run_state_no_empty_id fs files summary update_mode :
  "" ∉ all_participants (run_state fs files summary update_mode).
Proof.
  destruct (run_state_consistent fs files summary update_mode) as [-> _].
  rewrite elem_of_dom, run_state_pinfo. unfold first_sighting.
  rewrite load_existing_no_empty_id, first_info_is_Some.
  apply sightings_no_empty_id.
Qed.

(** X13: the empty text is never the id of a participant: a row whose id cell
    holds the empty text is passed over by the loader and by the ingestor. *)
Theorem empty_id_never_participant fs files summary update_mode :
  "" ∉ all_participants (run_state fs files summary update_mode).
Proof. apply run_state_no_empty_id. Qed.

(** ** Loading a written table *)

Lemma header_cells_unfold periods :
  header_cells periods =
  VStr COL_NAME :: VStr COL_PHONE :: VStr COL_ID
    :: (VStr <$> periods) ++ [VStr COL_TOTAL].
Proof. unfold header_cells. cbn [app]. by rewrite !fmap_cons, fmap_app. Qed.

Lemma header_cells_index_total periods :
  Forall (λ h, String.prefix "S" h = true) periods →
  index (VStr COL_TOTAL) (header_cells periods) = Some (3 + length periods)%nat.
Proof.
  intros H. rewrite header_cells_unfold. cbn [index].
  rewrite (decide_False (P := VStr COL_NAME = VStr COL_TOTAL)) by done.
  rewrite (decide_False (P := VStr COL_PHONE = VStr COL_TOTAL)) by done.
  rewrite (decide_False (P := VStr COL_ID = VStr COL_TOTAL)) by done.
  by rewrite index_total_periods.
Qed.

Lemma header_cells_period_columns periods :
  Forall (λ h, String.prefix "S" h = true) periods →
  period_columns_from 0 [0; 1; 2; 3 + length periods]%nat (header_cells periods)
    = Some periods.
Proof.
  intros H. rewrite header_cells_unfold. cbn [period_columns_from].
  rewrite period_columns_from_periods; [done..|].
  intros j Hj. rewrite !elem_of_cons, elem_of_nil. lia.
Qed.

Lemma header_cells_index_period periods p j :
  Forall (λ h, String.prefix "S" h = true) periods →
  String.prefix "S" p = true →
  index (VStr p) (header_cells periods) = Some j →
  ∃ i, j = (3 + i)%nat ∧ periods !! i = Some p.
Proof.
  intros H Hp Hj%index_lookup. rewrite header_cells_unfold in Hj.
  destruct j as [|[|[|i]]]; simpl in Hj;
    try (injection Hj as <-; discriminate Hp).
  exists i. split; [done|].
  destruct (decide (i < length periods)%nat) as [Hlt|Hge].
  - rewrite lookup_app_l in Hj by (by rewrite length_fmap).
    rewrite list_lookup_fmap in Hj.
    destruct (periods !! i); simpl in Hj; by simplify_eq.
  - rewrite lookup_app_r in Hj by (rewrite length_fmap; lia).
    destruct (i - length (VStr <$> periods))%nat; simpl in Hj; [|done].
    injection Hj as <-. discriminate Hp.
Qed.

Lemma load_scores_lookup headers row periods sc p :
  (∀ q, q ∈ periods →
     ∃ i, index (VStr q) headers = Some i ∧ (i < length row)%nat) →
  foldl (load_score headers row) sc periods !! p =
  if decide (p ∈ periods)
  then (λ i, or_zero (cell row i)) <$> index (VStr p) headers
  else sc !! p.
Proof.
  revert sc. induction periods as [|q periods IH]; intros sc Hq; cbn [foldl].
  { by rewrite decide_False by apply not_elem_of_nil. }
  rewrite IH by (intros; apply Hq; by constructor).
  destruct (Hq q) as (i & Hi & Hlt); [constructor|].
  unfold load_score. rewrite Hi. apply Nat.ltb_lt in Hlt. rewrite Hlt.
  destruct (decide (p ∈ periods)) as [Hin|Hout].
  - by rewrite decide_True by (by constructor).
  - destruct (decide (q = p)) as [->|Hne].
    + rewrite decide_True by constructor.
      by rewrite lookup_insert_eq, Hi.
    + rewrite decide_False by (rewrite elem_of_cons; intros [?|?]; done).
      by rewrite lookup_insert_ne.
Qed.

Lemma row_cells_lookup_score r i z :
  r_scores r !! i = Some z → cell (row_cells r) (3 + i) = VInt z.
Proof.
  intros Hz. unfold cell. apply list_lookup_total_correct.
  unfold row_cells. simpl.
  rewrite lookup_app_l by (rewrite length_fmap; by eapply lookup_lt_Some).
  by rewrite list_lookup_fmap, Hz.
Qed.

Lemma load_entry_row_cells periods st student_id r :
  Forall (λ h, String.prefix "S" h = true) periods →
  build_row periods st student_id = Some r →
  student_id ≠ "" →
  ∃ d,
    load_entry (header_cells periods) periods 0 1 2 (3 + length periods)
      (row_cells r) = Some (student_id, d) ∧
    info d = (r_name r, r_phone r) ∧
    ∀ p, scores d !! p =
         if decide (p ∈ periods)
         then Some (score_or_zero st student_id p) else None.
Proof.
  intros HS (Hid & _ & Hzs & _)%build_row_spec Hne.
  pose proof (Forall2_length _ _ _ Hzs) as Hlen.
  assert (length (row_cells r) = (4 + length periods)%nat) as Hrow.
  { unfold row_cells. simpl. rewrite length_app, length_fmap. simpl. lia. }
  unfold load_entry. rewrite Hrow.
  replace (4 + length periods <=? max4 0 1 2 (3 + length periods))%nat
    with false by (symmetry; apply Nat.leb_gt; unfold max4; lia).
  change (str (cell (row_cells r) 2)) with (r_id r). rewrite Hid.
  rewrite decide_False by done.
  eexists. split; [done|]. split; [done|]. intros p. simpl.
  rewrite load_scores_lookup.
  - destruct (decide (p ∈ periods)) as [Hp|]; [|by rewrite lookup_empty].
    assert (String.prefix "S" p = true) as HpS
      by (by rewrite Forall_forall in HS; apply HS).
    destruct (index_elem_of (VStr p) (header_cells periods)) as [j Hj].
    { rewrite header_cells_unfold. do 3 right.
      apply elem_of_app. left. by apply list_elem_of_fmap_2. }
    rewrite Hj. cbn [fmap option_fmap option_map].
    destruct (header_cells_index_period _ _ _ HS HpS Hj) as (i & -> & Hi).
    destruct (Forall2_lookup_l _ _ _ _ _ Hzs Hi) as (z & Hz & Hsc).
    rewrite (row_cells_lookup_score _ _ _ Hz). simpl.
    unfold score_or_zero. by rewrite Hsc.
  - intros q Hq.
    assert (String.prefix "S" q = true) as HqS
      by (by rewrite Forall_forall in HS; apply HS).
    destruct (index_elem_of (VStr q) (header_cells periods)) as [j Hj].
    { rewrite header_cells_unfold. do 3 right.
      apply elem_of_app. left. by apply list_elem_of_fmap_2. }
    destruct (header_cells_index_period _ _ _ HS HqS Hj) as (i & -> & Hi).
    exists (3 + i)%nat. split; [done|].
    apply lookup_lt_Some in Hi. rewrite Hrow. lia.
Qed.

Lemma last_record_None {A} (l : list (string * A)) k :
  k ∉ l.*1 → last_record l k = None.
Proof.
  induction l as [|[k' v'] l IH]; simpl; [done|].
  rewrite not_elem_of_cons. intros [Hne Hl].
  rewrite IH by done. by rewrite decide_False.
Qed.

Lemma last_record_NoDup {A} (l : list (string * A)) k v :
  NoDup l.*1 → (k, v) ∈ l → last_record l k = Some v.
Proof.
  induction l as [|[k' v'] l IH]; simpl; [by intros _ ?%not_elem_of_nil|].
  rewrite NoDup_cons. intros [Hk' Hl] [Heq|Hin]%elem_of_cons.
  - injection Heq as -> ->. rewrite last_record_None by done.
    by rewrite decide_True.
  - by rewrite IH.
Qed.

Lemma load_entries_row_cells periods st rs :
  Forall (λ h, String.prefix "S" h = true) periods →
  Forall (λ r, build_row periods st (r_id r) = Some r ∧ r_id r ≠ "") rs →
  ∃ l,
    omap (load_entry (header_cells periods) periods 0 1 2 (3 + length periods))
      (row_cells <$> rs) = l ∧
    l.*1 = r_id <$> rs ∧
    ∀ k d, (k, d) ∈ l →
      info d = default (VStr UNKNOWN, VStr UNKNOWN) (participant_info st !! k) ∧
      ∀ p, scores d !! p =
           if decide (p ∈ periods) then Some (score_or_zero st k p) else None.
Proof.
  intros HS. induction 1 as [|r rs [Hb Hne] _ (l & Hl & Hfst & Hgood)].
  { exists []. split_and!; [done..|]. by intros ?? ?%not_elem_of_nil. }
  destruct (load_entry_row_cells _ _ _ _ HS Hb Hne) as (d & Hd & Hinfo & Hsc).
  exists ((r_id r, d) :: l). split_and!.
  - rewrite fmap_cons. cbn [omap list_omap]. rewrite Hd.
    change (list_omap ?f ?x) with (omap f x). by rewrite Hl.
  - by rewrite !fmap_cons, Hfst.
  - intros k d' [Heq|Hin]%elem_of_cons; [|by apply Hgood].
    injection Heq as -> ->. split; [|done].
    rewrite Hinfo. by apply build_row_spec in Hb as (_ & -> & _).
Qed.

Lemma header_cells_index_fixed periods :
  index (VStr COL_NAME) (header_cells periods) = Some 0%nat ∧
  index (VStr COL_PHONE) (header_cells periods) = Some 1%nat ∧
  index (VStr COL_ID) (header_cells periods) = Some 2%nat.
Proof.
  rewrite header_cells_unfold. cbn [index].
  rewrite !decide_True by done.
  rewrite (decide_False (P := VStr COL_NAME = VStr COL_PHONE)) by done.
  rewrite (decide_False (P := VStr COL_NAME = VStr COL_ID)) by done.
  rewrite (decide_False (P := VStr COL_PHONE = VStr COL_ID)) by done.
  done.
Qed.

Lemma read_written_table periods rows student_id :
  Forall (λ h, String.prefix "S" h = true) periods →
  (read_existing_summary (Loaded (header_cells periods :: rows) false)).1
    !! student_id =
  last_record
    (omap (load_entry (header_cells periods) periods 0 1 2 (3 + length periods))
       rows) student_id.
Proof.
  intros HS. unfold read_existing_summary.
  destruct (header_cells_index_fixed periods) as (-> & -> & ->).
  rewrite header_cells_index_total by done.
  rewrite header_cells_period_columns by done.
  cbn [fst]. rewrite load_rows_last. by destruct (last_record _ student_id).
Qed.

(** The loader applied to the cells of a written table. *)
Lemma read_back_written fs glob_result summary update_mode table :
  process_activity_data fs glob_result summary update_mode = Written table →
  let st := run_state fs (sorted glob_result) summary update_mode in
  let periods := run_periods fs (sorted glob_result) summary update_mode in
  let loaded := read_existing_summary (Loaded table false) in
  loaded.2 = periods ∧
  dom loaded.1 = all_participants st ∧
  ∀ student_id d,
    loaded.1 !! student_id = Some d →
    Some (info d) =
      first_sighting fs (sorted glob_result) summary update_mode student_id ∧
    ∀ period,
      scores d !! period =
      if decide (period ∈ periods)
      then Some (score_or_zero st student_id period) else None.
Proof.
  intros Hrun. cbv zeta.
  destruct (process_written _ _ _ _ _ Hrun) as (rd & Hrd & -> & _).
  set (st := run_state fs (sorted glob_result) summary update_mode) in *.
  set (periods := run_periods fs (sorted glob_result) summary update_mode) in *.
  assert (Forall (λ h, String.prefix "S" h = true) periods) as HS.
  { apply Forall_forall. intros h. apply prefix_S_run_periods. }
  pose proof (build_rows_ids _ _ _ _ Hrd) as Hids.
  assert (r_id <$> sort_rows rd ≡ₚ elements (all_participants st)) as Hperm.
  { rewrite <- Hids. apply fmap_Permutation, sort_by_perm. }
  assert (Forall (λ r, build_row periods st (r_id r) = Some r ∧ r_id r ≠ "")
            (sort_rows rd)) as Hrows.
  { apply Forall_forall. intros r Hr%elem_of_sort_by.
    apply mapM_Some in Hrd.
    destruct (Forall2_elem_of_r _ _ _ _ Hrd Hr) as (sid & Hsid & Hb).
    pose proof (build_row_spec _ _ _ _ Hb) as (Hid & _). rewrite Hid.
    split; [done|]. intros ->. apply elem_of_elements in Hsid.
    by apply run_state_no_empty_id in Hsid. }
  destruct (load_entries_row_cells _ _ _ HS Hrows) as (l & Hl & Hfst & Hgood).
  assert (NoDup l.*1) as Hnd.
  { rewrite Hfst, Hperm. apply NoDup_elements. }
  assert (∀ sid, (read_existing_summary
                    (Loaded (header_cells periods :: (row_cells <$> sort_rows rd))
                       false)).1 !! sid = last_record l sid) as Hload.
  { intros sid. by rewrite read_written_table, Hl. }
  split_and!.
  - by apply read_back_periods.
  - apply set_eq. intros sid. rewrite elem_of_dom, Hload.
    rewrite <- elem_of_elements, <- Hperm, <- Hfst. split.
    + intros [d Hd%last_record_elem].
      apply list_elem_of_fmap. by exists (sid, d).
    + intros ([k d] & -> & Hin)%list_elem_of_fmap.
      exists d. by apply last_record_NoDup.
  - intros sid d. rewrite Hload. intros Hd%last_record_elem.
    destruct (Hgood _ _ Hd) as [Hinfo Hsc]. split; [|done].
    rewrite <- run_state_pinfo. fold st. rewrite Hinfo.
    assert (sid ∈ all_participants st) as Hsid.
    { rewrite <- elem_of_elements, <- Hperm, <- Hfst.
      apply list_elem_of_fmap. by exists (sid, d). }
    destruct (run_state_consistent fs (sorted glob_result) summary update_mode)
      as [Hp _].
    fold st in Hp. rewrite Hp in Hsid. apply elem_of_dom in Hsid as [i Hi].
    by rewrite Hi.
Qed.

(** X14: when every cell of the table a run wrote reads back from the saved
    sheet as it was written (numbers are saved with 16 significant digits,
    so a number beyond [2^53] need not), loading the saved sheet gives back
    what the run knew: the period columns are the known periods, the loaded
    participants are the participants of the run, each with the name and
    contact of the first sighting and, for every known period, the score
    of the run, a score that was missing being loaded as the number 0. *)
Theorem written_table_loads_back fs glob_result summary update_mode table
    (reload : value → value) :
  process_activity_data fs glob_result summary update_mode = Written table →
  Forall (Forall (λ v, reload v = v)) table →
  let st := run_state fs (sorted glob_result) summary update_mode in
  let periods := run_periods fs (sorted glob_result) summary update_mode in
  let loaded := read_existing_summary (saved_sheet reload table) in
  loaded.2 = periods ∧
  dom loaded.1 = all_participants st ∧
  ∀ student_id d,
    loaded.1 !! student_id = Some d →
    Some (info d) =
      first_sighting fs (sorted glob_result) summary update_mode student_id ∧
    ∀ period,
      scores d !! period =
      if decide (period ∈ periods)
      then Some (score_or_zero st student_id period) else None.
Proof.
  intros Hrun Hsame. unfold saved_sheet.
  assert ((λ row : list value, reload <$> row) <$> table = table) as ->.
  { clear Hrun. induction Hsame as [|row t Hrow _ IH]; [done|].
    rewrite fmap_cons, IH. f_equal.
    induction Hrow as [|v r Hv _ IHr]; [done|].
    by rewrite fmap_cons, Hv, IHr. }
  by apply read_back_written.
Qed.

Lemma written_table_loads_back_witness :
  Forall (Forall (λ v, MoreSamples.reload_rounding v = v)) Samples.table ∧
  let st := run_state Samples.fs (sorted ["S2.xlsx"; "S1.xlsx"]) None true in
  let periods := run_periods Samples.fs (sorted ["S2.xlsx"; "S1.xlsx"]) None true in
  let loaded :=
    read_existing_summary
      (saved_sheet MoreSamples.reload_rounding Samples.table) in
  loaded.2 = periods ∧
  dom loaded.1 = all_participants st ∧
  ∀ student_id d,
    loaded.1 !! student_id = Some d →
    Some (info d) =
      first_sighting Samples.fs (sorted ["S2.xlsx"; "S1.xlsx"]) None true
        student_id ∧
    ∀ period,
      scores d !! period =
      if decide (period ∈ periods)
      then Some (score_or_zero st student_id period) else None.
Proof.
  assert (Forall (Forall (λ v, MoreSamples.reload_rounding v = v)) Samples.table)
    as Hsame by (repeat constructor).
  split; [exact Hsame|].
  apply (written_table_loads_back Samples.fs ["S2.xlsx"; "S1.xlsx"] None true
           Samples.table MoreSamples.reload_rounding); [|exact Hsame].
  vm_compute. reflexivity.
Defined.

(** ** Cells that are not read *)

Lemma cell_agree (row row' : list value) i :
  row !! i = row' !! i → cell row i = cell row' i.
Proof.
  unfold cell. rewrite !list_lookup_total_alt. by intros ->.
Qed.

Lemma ingest_row_agree pk ni pi ii si st row row' :
  length row = length row' →
  (∀ i, i ∈ [ni; pi; ii; si] → row !! i = row' !! i) →
  ingest_row pk ni pi ii si st row = ingest_row pk ni pi ii si st row'.
Proof.
  intros Hlen H. unfold ingest_row. rewrite Hlen.
  rewrite (cell_agree row row' ni) by (apply H; repeat constructor).
  rewrite (cell_agree row row' pi) by (apply H; repeat constructor).
  rewrite (cell_agree row row' ii) by (apply H; repeat constructor).
  by rewrite (cell_agree row row' si) by (apply H; repeat constructor).
Qed.

(** X15: only the four required columns of a period file are read: two files
    with the same header row whose data rows have the same lengths and the
    same cells in these four columns are ingested to the same state. *)
Theorem other_columns_not_read fs fs' existing_periods update_mode st file
    headers data data' broken :
  fs file = Loaded (headers :: data) broken →
  fs' file = Loaded (headers :: data') broken →
  Forall2
    (λ row row',
       length row = length row' ∧
       ∀ col i, col ∈ required_columns → index (VStr col) headers = Some i →
                row !! i = row' !! i)
    data data' →
  ingest_file fs existing_periods update_mode st file =
  ingest_file fs' existing_periods update_mode st file.
Proof.
  intros Hfs Hfs' Hrows. unfold ingest_file. rewrite Hfs, Hfs'.
  destruct (bool_decide _ && update_mode); [done|].
  destruct (missing_columns headers); [|done].
  destruct (index (VStr COL_NAME) headers) as [ni|] eqn:Hn; [|done].
  destruct (index (VStr COL_PHONE) headers) as [pi|] eqn:Hp; [|done].
  destruct (index (VStr COL_ID) headers) as [ii|] eqn:Hi; [|done].
  destruct (index (VStr COL_TOTAL) headers) as [si|] eqn:Hs; [|done].
  destruct broken; [done|]. clear Hfs Hfs'.
  assert (∀ st0,
    foldl (ingest_row (period_key file) ni pi ii si) st0 data =
    foldl (ingest_row (period_key file) ni pi ii si) st0 data') as ->; [|done].
  induction Hrows as [|row row' data data' [Hlen Hcells] _ IH]; intros st0;
    [done|].
  simpl. rewrite (ingest_row_agree _ _ _ _ _ st0 row row'); [apply IH|done|].
  intros i. rewrite !elem_of_cons, elem_of_nil.
  intros [->|[->|[->|[->|[]]]]];
    [apply (Hcells COL_NAME)|apply (Hcells COL_PHONE)
    |apply (Hcells COL_ID)|apply (Hcells COL_TOTAL)];
    try done; unfold required_columns; repeat constructor.
Qed.

Lemma index_inj (x y : value) (headers : list value) (i : nat) :
  index x headers = Some i → index y headers = Some i → x = y.
Proof.
  intros Hx%index_lookup Hy%index_lookup. congruence.
Qed.

Lemma load_scores_agree headers row row' periods sc :
  length row = length row' →
  (∀ p j, p ∈ periods → index (VStr p) headers = Some j →
          row !! j = row' !! j) →
  foldl (load_score headers row) sc periods =
  foldl (load_score headers row') sc periods.
Proof.
  intros Hlen. revert sc.
  induction periods as [|p periods IH]; intros sc H; [done|].
  simpl. rewrite IH by (intros; eapply H; [by constructor|done]).
  f_equal. unfold load_score. rewrite Hlen.
  destruct (index (VStr p) headers) as [j|] eqn:Hj; [|done].
  by rewrite (cell_agree row row' j) by (eapply H; [constructor|done]).
Qed.

(** X16: the totals of an existing summary are not read: two summaries with the
    same header row whose data rows have the same lengths and differ only in
    the total column are loaded to the same participants, scores and
    periods. *)
Theorem summary_totals_not_read headers data data' broken total_idx :
  index (VStr COL_TOTAL) headers = Some total_idx →
  Forall2
    (λ row row',
       length row = length row' ∧
       ∀ i, i ≠ total_idx → row !! i = row' !! i)
    data data' →
  read_existing_summary (Loaded (headers :: data) broken) =
  read_existing_summary (Loaded (headers :: data') broken).
Proof.
  intros Ht Hrows. unfold read_existing_summary. rewrite Ht.
  destruct (index (VStr COL_NAME) headers) as [ni|] eqn:Hn; [|done].
  destruct (index (VStr COL_PHONE) headers) as [pi|] eqn:Hp; [|done].
  destruct (index (VStr COL_ID) headers) as [ii|] eqn:Hi; [|done].
  destruct (period_columns_from 0 [ni; pi; ii; total_idx] headers)
    as [periods|] eqn:Hper; [|done].
  destruct broken; [done|]. f_equal.
  assert (ni ≠ total_idx) as Hni
    by (intros ->; by pose proof (index_inj _ _ _ _ Hn Ht)).
  assert (pi ≠ total_idx) as Hpi
    by (intros ->; by pose proof (index_inj _ _ _ _ Hp Ht)).
  assert (ii ≠ total_idx) as Hii
    by (intros ->; by pose proof (index_inj _ _ _ _ Hi Ht)).
  assert (∀ p j, p ∈ periods → index (VStr p) headers = Some j →
                 j ≠ total_idx) as Hperiods.
  { intros p j Hin Hj ->.
    apply (elem_of_period_columns_from _ _ _ _ p Hper) in Hin
      as (_ & _ & _ & HS).
    pose proof (index_inj _ _ _ _ Hj Ht) as [= ->]. discriminate HS. }
  generalize (∅ : gmap string student).
  induction Hrows as [|row row' data data' [Hlen Hcells] _ IH]; intros sd;
    [done|].
  simpl. rewrite <- IH. f_equal. unfold load_row. rewrite Hlen.
  rewrite (cell_agree row row' ni), (cell_agree row row' pi),
    (cell_agree row row' ii) by auto.
  rewrite (load_scores_agree headers row row'); [done..|].
  intros p j Hin Hj. apply Hcells. by eapply Hperiods.
Qed.

(** ** The further properties on the examples *)

Lemma rejected_summary_is_ignored_witness :
  read_existing_summary MoreSamples.summary_blank = (∅, []) ∧
  process_activity_data Samples.fs ["S1.xlsx"]
    (Some MoreSamples.summary_blank) true =
  process_activity_data Samples.fs ["S1.xlsx"] None true.
Proof.
  apply (rejected_summary_is_ignored Samples.fs ["S1.xlsx"]
           MoreSamples.summary_blank true).
  simpl. right. right. do 4 apply Exists_cons_tl. apply Exists_cons_hd.
  by intros [s ?].
Defined.

Lemma known_period_file_not_read_witness :
  process_activity_data Samples.fs ["S1.xlsx"; "S2.xlsx"]
    (Some (Loaded Samples.table false)) true =
  process_activity_data MoreSamples.fs_corrected ["S1.xlsx"; "S2.xlsx"]
    (Some (Loaded Samples.table false)) true.
Proof.
  apply (known_period_file_not_read Samples.fs MoreSamples.fs_corrected
           ["S1.xlsx"; "S2.xlsx"] (Some (Loaded Samples.table false))).
  intros file Hin Hnew. exfalso. apply Hnew.
  rewrite !elem_of_cons, elem_of_nil in Hin.
  destruct Hin as [->|[->|[]]]; apply (bool_decide_unpack _); vm_compute;
    exact I.
Defined.

Lemma summary_last_row_wins_witness :
  (read_existing_summary
     (Loaded (Samples.summary_headers :: MoreSamples.rows_same_id) false)).1
    !! "100" =
  last_record
    (omap (load_entry Samples.summary_headers ["S1"; "Seat"] 0 1 2 5)
       MoreSamples.rows_same_id) "100".
Proof.
  apply (summary_last_row_wins Samples.summary_headers
           MoreSamples.rows_same_id 0 1 2 5 ["S1"; "Seat"] "100");
    reflexivity.
Defined.

Lemma other_columns_not_read_witness :
  ingest_file MoreSamples.fs_remark [] true (initial_state ∅) "S1.xlsx" =
  ingest_file MoreSamples.fs_remark' [] true (initial_state ∅) "S1.xlsx".
Proof.
  apply (other_columns_not_read MoreSamples.fs_remark MoreSamples.fs_remark'
           [] true (initial_state ∅) "S1.xlsx" MoreSamples.hdr_remark
           MoreSamples.rows_remark MoreSamples.rows_remark' false);
    [reflexivity..|].
  repeat constructor. intros col i Hcol Hi.
  unfold required_columns in Hcol. rewrite !elem_of_cons, elem_of_nil in Hcol.
  destruct Hcol as [->|[->|[->|[->|[]]]]]; vm_compute in Hi;
    injection Hi as <-; reflexivity.
Defined.

Lemma summary_totals_not_read_witness :
  read_existing_summary
    (Loaded (Samples.summary_headers :: Samples.summary_rows) false) =
  read_existing_summary
    (Loaded (Samples.summary_headers :: MoreSamples.rows_other_totals) false).
Proof.
  apply (summary_totals_not_read Samples.summary_headers Samples.summary_rows
           MoreSamples.rows_other_totals false 5); [reflexivity|].
  repeat constructor; intros [|[|[|[|[|[|i]]]]]] Hne; done.
Defined.

(** * The presentation step *)

(** ** Values and shape *)

Lemma sheet_values_restyle f row column cells :
  sheet_values (restyle f row column cells) = sheet_values cells.
Proof.
  unfold sheet_values, restyle. apply list_eq. intros i.
  rewrite !list_lookup_fmap, list_lookup_alter.
  destruct (decide (pred row = i)) as [<-|]; [|done].
  destruct (cells !! pred row) as [r|]; [|done]. simpl. f_equal.
  apply list_eq. intros j. rewrite !list_lookup_fmap, list_lookup_alter.
  destruct (decide (pred column = j)) as [<-|]; [|done].
  by destruct (r !! pred column).
Qed.

Lemma max_row_values cells cells' :
  sheet_values cells = sheet_values cells' → max_row cells = max_row cells'.
Proof.
  intros H. unfold max_row.
  assert (∀ g, length g = length (sheet_values g)) as Hlen
    by (intros g; unfold sheet_values; by rewrite length_fmap).
  by rewrite (Hlen cells), (Hlen cells'), H.
Qed.

Lemma max_column_values cells cells' :
  sheet_values cells = sheet_values cells' →
  max_column cells = max_column cells'.
Proof.
  intros H. unfold max_column.
  assert (∀ g, length <$> g = length <$> sheet_values g) as Hlen.
  { intros g. unfold sheet_values. rewrite <- list_fmap_compose.
    apply list_fmap_ext. intros _ r _. simpl. by rewrite length_fmap. }
  by rewrite (Hlen cells), (Hlen cells'), H.
Qed.

Lemma foldl_sheet_values {A} (step : list (list sheet_cell) → A → list (list sheet_cell))
    (l : list A) cells :
  (∀ g x, sheet_values (step g x) = sheet_values g) →
  sheet_values (foldl step cells l) = sheet_values cells.
Proof.
  intros H. revert cells. induction l as [|x l IH]; intros cells; [done|].
  simpl. by rewrite IH, H.
Qed.

Lemma sheet_values_style_column f column cells :
  sheet_values (style_column f column cells) = sheet_values cells.
Proof.
  unfold style_column. apply foldl_sheet_values.
  intros. apply sheet_values_restyle.
Qed.

Lemma sheet_values_column_step period_columns acc ch :
  sheet_values (column_step period_columns acc ch).1.1 = sheet_values acc.1.1.
Proof.
  destruct acc as [[cells widths] pis], ch as [col header]. simpl.
  repeat case_bool_decide; simpl; by rewrite ?sheet_values_style_column.
Qed.

Lemma sheet_values_columns period_columns columns acc :
  sheet_values (foldl (column_step period_columns) acc columns).1.1
    = sheet_values acc.1.1.
Proof.
  revert acc. induction columns as [|ch columns IH]; intros acc; [done|].
  simpl. by rewrite IH, sheet_values_column_step.
Qed.

Lemma sheet_values_border_step headers pis row cells col :
  sheet_values (border_step headers pis row cells col) = sheet_values cells.
Proof.
  unfold border_step. destruct (_ && _); [|done]. apply sheet_values_restyle.
Qed.

Lemma beautify_excel_cells ws period_columns ws' :
  beautify_excel ws period_columns = Some ws' →
  sheet_values (ws_cells ws') = sheet_values (ws_cells ws).
Proof.
  unfold beautify_excel. destruct (ws_cells ws) as [|r0 rest] eqn:Hcells;
    [done|].
  cbv zeta.
  destruct (foldl (column_step period_columns) _ _) as [[cells2 widths2] pis]
    eqn:Hfold.
  intros [= <-]. simpl.
  rewrite foldl_sheet_values
    by (intros; apply foldl_sheet_values; intros;
        apply sheet_values_border_step).
  change cells2 with (cells2, widths2, pis).1.1. rewrite <- Hfold.
  rewrite sheet_values_columns. simpl.
  apply foldl_sheet_values. intros. apply sheet_values_restyle.
Qed.

Lemma sheet_values_of_table table :
  sheet_values (ws_cells (sheet_of_table table)) = table.
Proof.
  unfold sheet_values, sheet_of_table. simpl.
  rewrite <- list_fmap_compose. rewrite <- (list_fmap_id table) at 2.
  apply list_fmap_ext. intros _ row _. simpl.
  rewrite <- list_fmap_compose. rewrite <- (list_fmap_id row) at 2.
  by apply list_fmap_ext.
Qed.

(** X17: the presentation step changes no value and no position: on every
    sheet with a cell it ends without error, and the styled sheet holds the
    values it was given, cell by cell.  The sheet written for a table holds
    the table. *)
Theorem styling_keeps_values ws period_columns :
  ws_cells ws ≠ [] →
  ∃ ws',
    beautify_excel ws period_columns = Some ws' ∧
    sheet_values (ws_cells ws') = sheet_values (ws_cells ws) ∧
    ∀ table, ws = sheet_of_table table → sheet_values (ws_cells ws') = table.
Proof.
  intros Hne.
  destruct (beautify_excel ws period_columns) as [ws'|] eqn:Hb.
  - exists ws'. pose proof (beautify_excel_cells _ _ _ Hb) as Hv.
    split_and!; [done..|]. intros table ->.
    by rewrite Hv, sheet_values_of_table.
  - unfold beautify_excel in Hb. destruct (ws_cells ws); [done|].
    cbv zeta in Hb. by destruct (foldl (column_step _) _ _) as [[??]?].
Qed.

(** ** Column widths *)

Lemma column_step_widths period_columns acc ch :
  (column_step period_columns acc ch).1.2 = <[ch.1 := 12]> acc.1.2.
Proof.
  destruct acc as [[cells widths] pis], ch as [col header]. simpl.
  by repeat case_bool_decide.
Qed.

Lemma columns_widths period_columns columns acc c :
  (foldl (column_step period_columns) acc columns).1.2 !! c =
  if decide (c ∈ columns.*1) then Some 12 else acc.1.2 !! c.
Proof.
  revert acc. induction columns as [|ch columns IH]; intros acc.
  { by rewrite decide_False by apply not_elem_of_nil. }
  cbn [foldl]. rewrite IH, column_step_widths, fmap_cons.
  destruct (decide (c ∈ columns.*1)) as [Hin|Hout].
  - by rewrite decide_True by (by constructor).
  - destruct (decide (ch.1 = c)) as [<-|Hne].
    + rewrite decide_True by constructor. by rewrite lookup_insert_eq.
    + rewrite decide_False by (rewrite elem_of_cons; intros [?|?]; done).
      by rewrite lookup_insert_ne.
Qed.

Lemma enumerate_columns {A} (headers : list A) :
  (zip (seq 1 (length headers)) headers).*1 = seq 1 (length headers).
Proof. apply fst_zip. by rewrite length_seq. Qed.

(** X18: after the presentation step every column of the sheet has the width
    12: the widths 30, 15 and 15 given to the three identity columns are
    replaced in the loop over the columns, and stay only for a column
    beyond the last column of the sheet. *)
Theorem every_column_width_12 ws period_columns ws' c :
  beautify_excel ws period_columns = Some ws' →
  column_width ws' !! c =
  if decide (1 ≤ c ≤ max_column (ws_cells ws))%nat then Some 12
  else (<[3%nat := 15]> (<[2%nat := 15]> (<[1%nat := 30]> (column_width ws)))) !! c.
Proof.
  unfold beautify_excel. destruct (ws_cells ws) as [|r0 rest]; [done|].
  cbv zeta.
  destruct (foldl (column_step period_columns) _ _) as [[cells2 widths2] pis]
    eqn:Hfold.
  intros [= <-]. simpl.
  change widths2 with (cells2, widths2, pis).1.2. rewrite <- Hfold.
  rewrite columns_widths, enumerate_columns, length_fmap, length_seq. simpl.
  destruct (decide (c ∈ seq 1 (max_column (r0 :: rest)))) as [Hin|Hout];
    rewrite elem_of_seq in *.
  - by rewrite decide_True by lia.
  - by rewrite decide_False by lia.
Qed.

(** ** The style of every cell *)

Lemma cell_at_restyle f r c cells r' c' :
  (1 ≤ r)%nat → (1 ≤ c)%nat → (1 ≤ r')%nat → (1 ≤ c')%nat →
  cell_at (restyle f r c cells) r' c' =
  if decide (r = r' ∧ c = c') then apply_style f <$> cell_at cells r' c'
  else cell_at cells r' c'.
Proof.
  intros Hr Hc Hr' Hc'. unfold cell_at, restyle.
  rewrite list_lookup_alter.
  destruct (decide (pred r = pred r')) as [Heq|Hne].
  - assert (r = r') as <- by lia.
    destruct (cells !! pred r) as [row|]; simpl;
      [|by destruct (decide _)].
    rewrite list_lookup_alter.
    destruct (decide (pred c = pred c')) as [Heq'|Hne'].
    + assert (c = c') as <- by lia. by rewrite decide_True.
    + rewrite decide_False; [done|]. intros [_ ->]. done.
  - rewrite decide_False; [done|]. intros [-> _]. done.
Qed.

Lemma cell_at_foldl_restyle f (cond : nat * nat → bool) ps cells r' c' :
  NoDup ps →
  (∀ p, p ∈ ps → (1 ≤ p.1)%nat ∧ (1 ≤ p.2)%nat) →
  (1 ≤ r')%nat → (1 ≤ c')%nat →
  cell_at (foldl (λ g p, if cond p then restyle f p.1 p.2 g else g) cells ps)
    r' c' =
  if decide ((r', c') ∈ ps ∧ cond (r', c') = true)
  then apply_style f <$> cell_at cells r' c'
  else cell_at cells r' c'.
Proof.
  intros Hnd Hps Hr' Hc'. revert cells.
  induction Hnd as [|[r c] ps Hp Hnd IH]; intros cells.
  { rewrite decide_False; [done|]. by intros [?%not_elem_of_nil _]. }
  cbn [foldl fst snd]. rewrite IH by (intros; apply Hps; by constructor).
  destruct (Hps (r, c)) as [Hr Hc]; [constructor|]. simpl in Hr, Hc.
  assert (cell_at (if cond (r, c) then restyle f r c cells else cells) r' c' =
          if decide ((r, c) = (r', c') ∧ cond (r, c) = true)
          then apply_style f <$> cell_at cells r' c'
          else cell_at cells r' c') as Hstep.
  { destruct (cond (r, c)) eqn:Hcond; simpl.
    - rewrite cell_at_restyle by done.
      destruct (decide (r = r' ∧ c = c')) as [[-> ->]|Hne].
      + by rewrite decide_True.
      + rewrite decide_False; [done|]. intros [[= -> ->] _]. by apply Hne.
    - rewrite decide_False; [done|]. by intros [_ ?]. }
  destruct (decide ((r', c') ∈ ps ∧ cond (r', c') = true)) as [[Hin Hcond]|Hno].
  - rewrite decide_True by (split; [by constructor|done]).
    rewrite Hstep, decide_False; [done|]. intros [[= -> ->] _]. done.
  - rewrite Hstep.
    destruct (decide ((r, c) = (r', c') ∧ cond (r, c) = true))
      as [[[= -> ->] Hcond]|Hne].
    + by rewrite decide_True by (split; [constructor|done]).
    + rewrite decide_False; [done|].
      intros [[Heq|Hin]%elem_of_cons Hcond]; [|by apply Hno].
      apply Hne. by rewrite <- Heq.
Qed.

Lemma cell_at_header_row columns cells r' c' :
  NoDup columns.*1 → (∀ ch : nat * value, ch ∈ columns → (1 ≤ ch.1)%nat) →
  (1 ≤ r')%nat → (1 ≤ c')%nat →
  cell_at (foldl (λ g (ch : nat * value), restyle header_style 1 ch.1 g)
             cells columns) r' c' =
  if decide (r' = 1%nat ∧ c' ∈ columns.*1)
  then apply_style header_style <$> cell_at cells r' c'
  else cell_at cells r' c'.
Proof.
  intros Hnd Hge Hr' Hc'.
  pose proof (cell_at_foldl_restyle header_style (λ _, true)
                ((λ ch : nat * value, (1%nat, ch.1)) <$> columns) cells r' c')
    as H.
  rewrite foldl_fmap in H. simpl in H. rewrite H; [|..|done|done].
  - destruct (decide (r' = 1%nat ∧ c' ∈ columns.*1)) as [[-> Hin]|Hno].
    + rewrite decide_True; [done|]. split; [|done].
      apply list_elem_of_fmap in Hin as (ch & -> & Hin).
      apply list_elem_of_fmap. by exists ch.
    + rewrite decide_False; [done|].
      intros [(ch & [= -> ->] & Hin)%list_elem_of_fmap _]. apply Hno.
      split; [done|]. apply list_elem_of_fmap. by exists ch.
  - assert ((λ ch : nat * value, (1%nat, ch.1)) <$> columns =
            (λ c : nat, (1%nat, c)) <$> columns.*1) as ->
      by (by rewrite <- list_fmap_compose).
    apply NoDup_fmap_2; [|done]. by intros ?? [= ->].
  - intros p (ch & -> & Hin)%list_elem_of_fmap. simpl. split; [lia|by apply Hge].
Qed.

Lemma cell_at_style_column f col cells r' c' :
  (1 ≤ col)%nat → (1 ≤ r')%nat → (1 ≤ c')%nat →
  cell_at (style_column f col cells) r' c' =
  if decide (c' = col ∧ (2 ≤ r' ≤ max_row cells)%nat)
  then apply_style f <$> cell_at cells r' c'
  else cell_at cells r' c'.
Proof.
  intros Hcol Hr' Hc'. unfold style_column.
  pose proof (cell_at_foldl_restyle f (λ _, true)
                ((λ r : nat, (r, col)) <$> seq 2 (max_row cells - 1)) cells r' c')
    as H.
  rewrite foldl_fmap in H. simpl in H. rewrite H; [|..|done|done].
  - assert (1 ≤ max_row cells)%nat by (unfold max_row; lia).
    destruct (decide (c' = col ∧ (2 ≤ r' ≤ max_row cells)%nat)) as [[-> Hin]|Hno].
    + rewrite decide_True; [done|]. split; [|done].
      apply list_elem_of_fmap. exists r'. split; [done|].
      apply elem_of_seq. lia.
    + rewrite decide_False; [done|].
      intros [(r & [= -> ->] & Hin%elem_of_seq)%list_elem_of_fmap _].
      apply Hno. split; [done|lia].
  - apply NoDup_fmap_2; [by intros ?? [= ->]|apply NoDup_seq].
  - intros p (r & -> & Hin%elem_of_seq)%list_elem_of_fmap. simpl. lia.
Qed.

Lemma apply_style_keep x : apply_style sc_style x = x.
Proof. by destruct x. Qed.

Lemma cell_at_column_step period_columns acc col header r' c' :
  (1 ≤ col)%nat → (1 ≤ r')%nat → (1 ≤ c')%nat →
  cell_at (column_step period_columns acc (col, header)).1.1 r' c' =
  if decide (c' = col ∧ (2 ≤ r' ≤ max_row acc.1.1)%nat)
  then apply_style (column_style period_columns header) <$> cell_at acc.1.1 r' c'
  else cell_at acc.1.1 r' c'.
Proof.
  intros Hcol Hr' Hc'. destruct acc as [[cells widths] pis].
  unfold column_step, column_style. cbn [fst snd].
  case_bool_decide as Hper.
  - cbn [fst]. rewrite cell_at_style_column by done.
    destruct (decide _); [|done].
    apply option_fmap_ext. intros x. unfold apply_style.
    by rewrite decide_True.
  - case_bool_decide as Htot; cbn [fst].
    + rewrite cell_at_style_column by done.
      destruct (decide _); [|done].
      apply option_fmap_ext. intros x. unfold apply_style.
      by rewrite decide_False, decide_True.
    + destruct (decide _); [|done].
      destruct (cell_at cells r' c') as [x|]; [|done]. simpl. f_equal.
      unfold apply_style. rewrite decide_False, decide_False by done.
      by destruct x.
Qed.

Lemma max_row_column_step period_columns acc ch :
  max_row (column_step period_columns acc ch).1.1 = max_row acc.1.1.
Proof. apply max_row_values, sheet_values_column_step. Qed.

Lemma cell_at_columns_miss period_columns columns acc r' c' :
  (∀ ch : nat * value, ch ∈ columns → (1 ≤ ch.1)%nat) →
  (1 ≤ r')%nat → (1 ≤ c')%nat →
  c' ∉ columns.*1 →
  cell_at (foldl (column_step period_columns) acc columns).1.1 r' c' =
  cell_at acc.1.1 r' c'.
Proof.
  intros Hge Hr' Hc'. revert acc.
  induction columns as [|[col header] columns IH]; intros acc Hout; [done|].
  rewrite fmap_cons, not_elem_of_cons in Hout. destruct Hout as [Hne Hout].
  cbn [foldl]. rewrite IH by (try done; intros; apply Hge; by constructor).
  rewrite cell_at_column_step; [|by apply (Hge (col, header)); constructor|done..].
  rewrite decide_False; [done|]. by intros [-> _].
Qed.

Lemma cell_at_columns_hit period_columns columns acc r' c' header :
  NoDup columns.*1 →
  (∀ ch : nat * value, ch ∈ columns → (1 ≤ ch.1)%nat) →
  (1 ≤ r')%nat → (1 ≤ c')%nat →
  (c', header) ∈ columns →
  cell_at (foldl (column_step period_columns) acc columns).1.1 r' c' =
  if decide (2 ≤ r' ≤ max_row acc.1.1)%nat
  then apply_style (column_style period_columns header) <$> cell_at acc.1.1 r' c'
  else cell_at acc.1.1 r' c'.
Proof.
  intros Hnd Hge Hr' Hc'. revert acc.
  induction columns as [|[col h] columns IH]; intros acc Hin.
  { by apply not_elem_of_nil in Hin. }
  rewrite fmap_cons, NoDup_cons in Hnd. destruct Hnd as [Hcol Hnd].
  assert (1 ≤ col)%nat by (by apply (Hge (col, h)); constructor).
  cbn [foldl]. apply elem_of_cons in Hin as [[= -> ->]|Hin].
  - rewrite cell_at_columns_miss
      by (try done; intros; apply Hge; by constructor).
    rewrite cell_at_column_step by done.
    destruct (decide (2 ≤ r' ≤ max_row acc.1.1)%nat).
    + by rewrite decide_True.
    + rewrite decide_False; [done|]. by intros [_ ?].
  - rewrite IH by (try done; intros; apply Hge; by constructor).
    rewrite max_row_column_step, cell_at_column_step by done.
    rewrite (decide_False (P := c' = col ∧ _)); [done|].
    intros [-> _]. apply Hcol, list_elem_of_fmap. by exists (col, header).
Qed.

Lemma columns_period_indices period_columns columns acc :
  (foldl (column_step period_columns) acc columns).2 =
  acc.2 ++ (filter (λ ch, ch.2 ∈ VStr <$> period_columns) columns).*1.
Proof.
  revert acc. induction columns as [|[col header] columns IH]; intros acc.
  { simpl. by rewrite app_nil_r. }
  cbn [foldl]. rewrite IH. destruct acc as [[cells widths] pis].
  unfold column_step. cbn [fst snd].
  case_bool_decide as Hper.
  - rewrite filter_cons_True by done. simpl. by rewrite <- app_assoc.
  - rewrite filter_cons_False by done. by case_bool_decide.
Qed.

Lemma cell_at_border_row headers pis row cols cells r' c' :
  NoDup cols → (∀ c, c ∈ cols → (1 ≤ c)%nat) →
  (1 ≤ row)%nat → (1 ≤ r')%nat → (1 ≤ c')%nat →
  cell_at (foldl (border_step headers pis row) cells cols) r' c' =
  if decide (r' = row ∧ c' ∈ cols ∧ (c' ∉ pis) ∧
             headers !!! (c' - 1)%nat ≠ VStr COL_TOTAL)
  then apply_style border_style <$> cell_at cells r' c'
  else cell_at cells r' c'.
Proof.
  intros Hnd Hge Hrow Hr' Hc'.
  pose proof (cell_at_foldl_restyle border_style
                (λ p, bool_decide (p.2 ∉ pis) &&
                      bool_decide (headers !!! (p.2 - 1)%nat ≠ VStr COL_TOTAL))
                ((λ c : nat, (row, c)) <$> cols) cells r' c') as H.
  rewrite foldl_fmap in H. cbn [fst snd] in H. unfold border_step.
  rewrite H; [|..|done|done].
  - destruct (decide (r' = row ∧ c' ∈ cols ∧ (c' ∉ pis) ∧
                      headers !!! (c' - 1)%nat ≠ VStr COL_TOTAL))
      as [(-> & Hin & Hpis & Htot)|Hno].
    + rewrite decide_True; [done|]. split.
      * apply list_elem_of_fmap. by exists c'.
      * by rewrite !bool_decide_true.
    + rewrite decide_False; [done|].
      intros [(c & [= -> ->] & Hin)%list_elem_of_fmap Hcond].
      apply andb_true_iff in Hcond as [Hp%bool_decide_eq_true Ht%bool_decide_eq_true].
      by apply Hno.
  - apply NoDup_fmap_2; [by intros ?? [= ->]|done].
  - intros p (c & -> & Hin)%list_elem_of_fmap. simpl. split; [done|by apply Hge].
Qed.

Lemma cell_at_borders headers pis rows cells r' c' :
  NoDup rows → (∀ r, r ∈ rows → (1 ≤ r)%nat) →
  (1 ≤ r')%nat → (1 ≤ c')%nat →
  cell_at
    (foldl (λ g row,
              foldl (border_step headers pis row) g (seq 1 (max_column g)))
       cells rows) r' c' =
  if decide (r' ∈ rows ∧ (c' ≤ max_column cells)%nat ∧ (c' ∉ pis) ∧
             headers !!! (c' - 1)%nat ≠ VStr COL_TOTAL)
  then apply_style border_style <$> cell_at cells r' c'
  else cell_at cells r' c'.
Proof.
  intros Hnd Hge Hr' Hc'. revert cells.
  induction Hnd as [|row rows Hrow Hnd IH]; intros cells.
  { rewrite decide_False; [done|]. by intros [?%not_elem_of_nil _]. }
  cbn [foldl]. rewrite IH by (intros; apply Hge; by constructor).
  assert (1 ≤ row)%nat by (apply Hge; constructor).
  rewrite (max_column_values (foldl _ cells _) cells)
    by (apply foldl_sheet_values; intros; apply sheet_values_border_step).
  rewrite cell_at_border_row;
    [|apply NoDup_seq|intros c ?%elem_of_seq; lia|done..].
  destruct (decide (r' ∈ rows ∧ _)) as [(Hin & Hmax & Hpis & Htot)|Hno];
    destruct (decide (r' = row ∧ _)) as [(Heq & Hseq & Hpis' & Htot')|Hne];
    destruct (decide (r' ∈ row :: rows ∧ _))
      as [(Hin' & Hmax' & Hpis'' & Htot'')|Hno'];
    try done.
  - by subst.
  - by subst.
  - destruct Hno'. split; [apply elem_of_cons; by right|done].
  - destruct Hno'. apply elem_of_seq in Hseq.
    split; [apply elem_of_cons; by left|]. split; [lia|done].
  - apply elem_of_cons in Hin' as [->|Hin'].
    + destruct Hne. split; [done|]. split; [apply elem_of_seq; lia|done].
    + destruct Hno. by split.
Qed.

Lemma cell_at_bounds cells r c x :
  cell_at cells r c = Some x → (1 ≤ r)%nat → (1 ≤ c)%nat →
  (r ≤ max_row cells)%nat ∧ (c ≤ max_column cells)%nat.
Proof.
  unfold cell_at, max_row, max_column. intros H Hr Hc.
  destruct (cells !! pred r) as [row|] eqn:Hrow; [|done]. simpl in H.
  apply lookup_lt_Some in H. pose proof (lookup_lt_Some _ _ _ Hrow).
  assert (length row ≤ max_list (length <$> cells))%nat.
  { apply max_list_elem_of_le, list_elem_of_fmap. exists row.
    split; [done|]. by eapply list_elem_of_lookup_2. }
  lia.
Qed.

Lemma elem_of_enumerate {A} (f : nat → A) n c h :
  (c, h) ∈ zip (seq 1 n) (f <$> seq 1 n) ↔ (1 ≤ c ≤ n)%nat ∧ h = f c.
Proof.
  rewrite list_elem_of_lookup. split.
  - intros (i & Hi). apply lookup_zip_with_Some in Hi
      as (c' & h' & [= <- <-] & Hc & Hh).
    rewrite list_lookup_fmap, Hc in Hh. injection Hh as <-.
    apply lookup_seq in Hc as [-> ?]. split; [lia|done].
  - intros [Hc ->]. exists (c - 1)%nat. apply lookup_zip_with_Some.
    exists c, (f c). split; [done|].
    assert (seq 1 n !! (c - 1)%nat = Some c) as Hs
      by (apply lookup_seq; lia).
    split; [done|]. by rewrite list_lookup_fmap, Hs.
Qed.

Lemma beautify_excel_cell ws period_columns ws' r c x :
  beautify_excel ws period_columns = Some ws' →
  (1 ≤ r)%nat → (1 ≤ c)%nat →
  cell_at (ws_cells ws) r c = Some x →
  cell_at (ws_cells ws') r c =
  Some (apply_style
          (final_style period_columns r (value_at (ws_cells ws) 1 c)) x).
Proof.
  unfold beautify_excel. intros Hb Hr Hc Hx.
  destruct (cell_at_bounds _ _ _ _ Hx Hr Hc) as [Hrmax Hcmax].
  set (g0 := ws_cells ws) in *.
  destruct g0 as [|r0 rest] eqn:Hg0; [done|]. rewrite <- Hg0 in *.
  cbv zeta in Hb.
  set (headers := (λ c, value_at g0 1 c) <$> seq 1 (max_column g0)) in *.
  assert (length headers = max_column g0) as Hlen
    by (unfold headers; by rewrite length_fmap, length_seq).
  rewrite Hlen in Hb.
  set (columns := zip (seq 1 (max_column g0)) headers) in *.
  set (cells1 := foldl (λ g (ch : nat * value), restyle header_style 1 ch.1 g)
                   g0 columns) in *.
  destruct (foldl (column_step period_columns) _ columns)
    as [[cells2 widths2] pis] eqn:Hfold.
  injection Hb as <-. cbn [ws_cells].
  set (h := value_at g0 1 c).
  assert (columns.*1 = seq 1 (max_column g0)) as Hfst.
  { unfold columns. rewrite <- Hlen at 1 2. apply enumerate_columns. }
  assert (NoDup columns.*1) as Hnd by (rewrite Hfst; apply NoDup_seq).
  assert (∀ ch : nat * value, ch ∈ columns → (1 ≤ ch.1)%nat) as Hge.
  { intros [c' h'] Hin. apply elem_of_enumerate in Hin. simpl. lia. }
  assert ((c, h) ∈ columns) as Hin by (by apply elem_of_enumerate).
  assert (sheet_values cells1 = sheet_values g0) as Hv1.
  { apply foldl_sheet_values. intros. apply sheet_values_restyle. }
  assert (cells2 = (foldl (column_step period_columns)
                      (cells1, <[3%nat:=15]> (<[2%nat:=15]>
                         (<[1%nat:=30]> (column_width ws))), []) columns).1.1)
    as Hc2 by (by rewrite Hfold).
  assert (sheet_values cells2 = sheet_values g0) as Hv2.
  { rewrite Hc2, sheet_values_columns. exact Hv1. }
  assert (c ∈ pis ↔ h ∈ VStr <$> period_columns) as Hpis.
  { assert (pis = (foldl (column_step period_columns)
                      (cells1, <[3%nat:=15]> (<[2%nat:=15]>
                         (<[1%nat:=30]> (column_width ws))), []) columns).2)
      as -> by (by rewrite Hfold).
    rewrite columns_period_indices. simpl. split.
    - intros ([c' h'] & -> & [Hper Hin']%list_elem_of_filter)%list_elem_of_fmap.
      simpl in *. apply elem_of_enumerate in Hin' as [_ ->]. exact Hper.
    - intros Hper. apply list_elem_of_fmap. exists (c, h). split; [done|].
      by apply list_elem_of_filter. }
  assert (headers !!! (c - 1)%nat = h) as Hh.
  { apply list_lookup_total_correct. unfold headers.
    assert (seq 1 (max_column g0) !! (c - 1)%nat = Some c) as Hs
      by (apply lookup_seq; lia).
    by rewrite list_lookup_fmap, Hs. }
  rewrite cell_at_borders;
    [|apply NoDup_seq|intros ? ?%elem_of_seq; lia|done..].
  rewrite (max_row_values cells2 g0), (max_column_values cells2 g0) by done.
  rewrite Hc2.
  rewrite (cell_at_columns_hit _ _ _ _ _ h) by done.
  cbn [fst]. rewrite (max_row_values cells1 g0) by done.
  unfold cells1. rewrite cell_at_header_row by done.
  rewrite Hx, Hh. unfold final_style, column_style.
  destruct (decide (r = 1%nat)) as [->|Hr1].
  - rewrite (decide_True (P := 1%nat = 1%nat ∧ _))
      by (split; [done|rewrite Hfst; apply elem_of_seq; lia]).
    rewrite (decide_False (P := (2 ≤ 1 ≤ _)%nat)) by lia.
    rewrite (decide_False (P := 1%nat ∈ _ ∧ _)); [done|].
    intros [Hs%elem_of_seq _]. lia.
  - rewrite (decide_False (P := r = 1%nat ∧ _)) by (by intros [? _]).
    rewrite (decide_True (P := (2 ≤ r ≤ _)%nat)) by lia. simpl.
    assert (r ∈ seq 2 (max_row g0 - 1)) as Hrs by (apply elem_of_seq; lia).
    destruct (decide (h ∈ VStr <$> period_columns)) as [Hper|Hper].
    + rewrite (decide_False (P := r ∈ _ ∧ _)); [done|].
      intros (_ & _ & Hout & _). by apply Hout, Hpis.
    + destruct (decide (h = VStr COL_TOTAL)) as [Htot|Htot].
      * rewrite (decide_False (P := r ∈ _ ∧ _)); [done|].
        by intros (_ & _ & _ & ?).
      * rewrite (decide_True (P := r ∈ _ ∧ _)).
        -- simpl. by rewrite apply_style_keep.
        -- split_and!; [done..| |done]. by rewrite Hpis.
Qed.

(** X19: after the presentation step every cell of the sheet has its value and
    the style given by its row and by the header of its column: the header
    style in row 1; below it the period style in a column whose header is
    one of the period columns, the total style in the column of totals, and
    a border only in every other column. *)
Theorem styled_cells ws period_columns ws' r c x :
  beautify_excel ws period_columns = Some ws' →
  (1 ≤ r)%nat → (1 ≤ c)%nat →
  cell_at (ws_cells ws) r c = Some x →
  cell_at (ws_cells ws') r c =
  Some (apply_style
          (final_style period_columns r (value_at (ws_cells ws) 1 c)) x).
Proof. apply beautify_excel_cell. Qed.

(** X20: below the header row, a cell of a period column is filled with the
    colour for a score of 0 exactly when its value is the number 0, and
    with the colour of the period columns otherwise. *)
Theorem zero_scores_highlighted ws period_columns ws' r c x :
  beautify_excel ws period_columns = Some ws' →
  (2 ≤ r)%nat → (1 ≤ c)%nat →
  cell_at (ws_cells ws) r c = Some x →
  value_at (ws_cells ws) 1 c ∈ VStr <$> period_columns →
  ∃ x',
    cell_at (ws_cells ws') r c = Some x' ∧
    sc_value x' = sc_value x ∧
    (cs_fill (sc_style x') = Some ZERO_FILL ↔ sc_value x = VInt 0) ∧
    (cs_fill (sc_style x') = Some PERIOD_FILL ↔ sc_value x ≠ VInt 0).
Proof.
  intros Hb Hr Hc Hx Hper. eexists. split.
  { apply (beautify_excel_cell _ _ _ _ _ x Hb); [lia|done..]. }
  unfold apply_style, final_style. simpl.
  rewrite decide_False by lia. rewrite decide_True by done. simpl.
  split; [done|]. destruct (decide (sc_value x = VInt 0)); split; split;
    try done; intros [=].
Qed.

(** ** The presentation step on the examples *)

Lemma styled_sheet_eq :
  beautify_excel MoreSamples.sheet ["S1"; "S2"] = Some MoreSamples.styled_sheet.
Proof. vm_compute. reflexivity. Qed.

Lemma styling_keeps_values_witness :
  ∃ ws',
    beautify_excel MoreSamples.sheet ["S1"; "S2"] = Some ws' ∧
    sheet_values (ws_cells ws') = sheet_values (ws_cells MoreSamples.sheet) ∧
    ∀ table, MoreSamples.sheet = sheet_of_table table →
             sheet_values (ws_cells ws') = table.
Proof.
  apply (styling_keeps_values MoreSamples.sheet ["S1"; "S2"]).
  vm_compute. discriminate.
Defined.

Lemma every_column_width_12_witness :
  column_width MoreSamples.styled_sheet !! 1%nat =
  if decide (1 ≤ 1 ≤ max_column (ws_cells MoreSamples.sheet))%nat then Some 12
  else (<[3%nat := 15]> (<[2%nat := 15]> (<[1%nat := 30]>
          (column_width MoreSamples.sheet)))) !! 1%nat.
Proof.
  apply (every_column_width_12 MoreSamples.sheet ["S1"; "S2"]
           MoreSamples.styled_sheet 1).
  vm_compute. reflexivity.
Defined.

Lemma styled_cells_witness :
  cell_at (ws_cells MoreSamples.styled_sheet) 3 5 =
  Some (apply_style
          (final_style ["S1"; "S2"] 3
             (value_at (ws_cells MoreSamples.sheet) 1 5))
          {| sc_value := VInt 0; sc_style := plain_style |}).
Proof.
  apply (styled_cells MoreSamples.sheet ["S1"; "S2"] MoreSamples.styled_sheet
           3 5 {| sc_value := VInt 0; sc_style := plain_style |});
    [vm_compute; reflexivity|lia|lia|reflexivity].
Defined.

Lemma zero_scores_highlighted_witness :
  ∃ x',
    cell_at (ws_cells MoreSamples.styled_sheet) 3 5 = Some x' ∧
    sc_value x' = VInt 0 ∧
    (cs_fill (sc_style x') = Some ZERO_FILL ↔ VInt 0 = VInt 0) ∧
    (cs_fill (sc_style x') = Some PERIOD_FILL ↔ VInt 0 ≠ VInt 0).
Proof.
  apply (zero_scores_highlighted MoreSamples.sheet ["S1"; "S2"]
           MoreSamples.styled_sheet 3 5
           {| sc_value := VInt 0; sc_style := plain_style |});
    [vm_compute; reflexivity|lia|lia|reflexivity|].
  apply (bool_decide_unpack _). vm_compute. exact I.
Defined.

(** ** The cells behind the scores *)

Lemma last_record_fmap {A B} (f : A → B) (l : list (string * A)) k :
  last_record (prod_map id f <$> l) k = f <$> last_record l k.
Proof.
  induction l as [|[k' v] l IH]; [done|].
  rewrite fmap_cons. cbn [last_record prod_map fst snd id]. rewrite IH.
  destruct (last_record l k); simpl; [done|].
  by destruct (decide (k' = k)).
Qed.

Lemma row_score_of_cell name_idx phone_idx id_idx score_idx row :
  row_score name_idx phone_idx id_idx score_idx row =
  prod_map id or_zero <$> row_score_cell name_idx phone_idx id_idx score_idx row.
Proof.
  unfold row_score, row_score_cell.
  destruct (length row <=? _)%nat; [done|].
  by destruct (decide (str (cell row id_idx) = "")).
Qed.

Lemma file_scores_of_cells wb :
  file_scores wb = prod_map id or_zero <$> file_score_cells wb.
Proof.
  unfold file_scores, file_score_cells.
  induction (file_rows wb) as [|row rows IH]; [done|].
  cbn [omap list_omap]. rewrite row_score_of_cell.
  change (list_omap ?f ?x) with (omap f x). rewrite IH.
  by destruct (row_score_cell _ _ _ _ row).
Qed.

Lemma period_scores_of_cells fs period files :
  period_scores fs period files =
  prod_map id or_zero <$> period_score_cells fs period files.
Proof.
  unfold period_scores, period_score_cells.
  induction files as [|file files IH]; [done|].
  destruct (decide (period_key file = period)).
  - rewrite !filter_cons_True by done.
    by rewrite !bind_cons, fmap_app, IH, file_scores_of_cells.
  - by rewrite !filter_cons_False by done.
Qed.

Lemma load_entry_of_row headers periods ni pi ii ti row :
  load_entry headers periods ni pi ii ti row =
  prod_map id
    (λ row, {| info := (cell row ni, cell row pi);
               scores := foldl (load_score headers row) ∅ periods |})
    <$> summary_row ni pi ii ti row.
Proof.
  unfold load_entry, summary_row.
  destruct (length row <=? _)%nat; [done|].
  by destruct (decide (str (cell row ii) = "")).
Qed.

Lemma load_entries_of_rows headers periods ni pi ii ti
    (rows : list (list value)) :
  omap (load_entry headers periods ni pi ii ti) rows =
  prod_map id
    (λ row, {| info := (cell row ni, cell row pi);
               scores := foldl (load_score headers row) ∅ periods |})
    <$> omap (summary_row ni pi ii ti) rows.
Proof.
  induction rows as [|row rows IH]; [done|].
  cbn [omap list_omap]. rewrite load_entry_of_row.
  change (list_omap ?f ?x) with (omap f x). rewrite IH.
  by destruct (summary_row ni pi ii ti row).
Qed.

(** What the loader stores for a period column of a row. *)
Lemma load_scores_cell headers row periods sc p :
  foldl (load_score headers row) sc periods !! p =
  if decide (p ∈ periods)
  then match index (VStr p) headers ≫= loaded_cell row with
       | Some v => Some v
       | None => sc !! p
       end
  else sc !! p.
Proof.
  revert sc. induction periods as [|q periods IH]; intros sc; cbn [foldl].
  { by rewrite decide_False by apply not_elem_of_nil. }
  rewrite IH. destruct (decide (q = p)) as [->|Hne].
  - rewrite (decide_True (P := p ∈ p :: periods)) by constructor.
    unfold load_score, loaded_cell, or_zero.
    destruct (index (VStr p) headers) as [i|]; simpl.
    + destruct (i <? length row)%nat.
      * rewrite lookup_insert_eq.
        by destruct (decide (p ∈ periods)), (cell row i).
      * by destruct (decide (p ∈ periods)).
    + by destruct (decide (p ∈ periods)).
  - assert (load_score headers row sc q !! p = sc !! p) as ->.
    { unfold load_score.
      destruct (index (VStr q) headers) as [j|]; [|done].
      destruct (j <? length row)%nat; [|done].
      by rewrite lookup_insert_ne. }
    destruct (decide (p ∈ periods)).
    + by rewrite decide_True by (by right).
    + by rewrite decide_False by (rewrite elem_of_cons; intros [?|?]; done).
Qed.

(** The score loaded for a participant and a period column is read from the
    cell of that column in the row the loader keeps for the participant. *)
Lemma loaded_score headers data ni pi ii ti periods student_id h i :
  index (VStr COL_NAME) headers = Some ni →
  index (VStr COL_PHONE) headers = Some pi →
  index (VStr COL_ID) headers = Some ii →
  index (VStr COL_TOTAL) headers = Some ti →
  period_columns_from 0 [ni; pi; ii; ti] headers = Some periods →
  h ∈ periods →
  index (VStr h) headers = Some i →
  (read_existing_summary (Loaded (headers :: data) false)).1 !! student_id
    ≫= (λ d, scores d !! h) =
  loaded_row (Loaded (headers :: data) false) student_id
    ≫= (λ row, loaded_cell row i).
Proof.
  intros Hn Hp Hi Ht Hper Hh Hidx. unfold read_existing_summary.
  rewrite Hn, Hp, Hi, Ht, Hper. cbn [fst]. rewrite load_rows_last.
  unfold loaded_row, column. cbn [file_headers file_rows].
  rewrite Hn, Hp, Hi, Ht. cbn [default].
  rewrite load_entries_of_rows, last_record_fmap.
  destruct (last_record _ student_id) as [row|]; simpl;
    [|by rewrite lookup_empty].
  rewrite load_scores_cell, decide_True by done.
  rewrite Hidx. simpl. rewrite lookup_empty.
  by destruct (loaded_cell row i).
Qed.

(** A summary with a period column was read in full. *)
Lemma read_existing_summary_periods wb h :
  h ∈ (read_existing_summary wb).2 →
  ∃ headers data ni pi ii ti periods,
    wb = Loaded (headers :: data) false ∧
    index (VStr COL_NAME) headers = Some ni ∧
    index (VStr COL_PHONE) headers = Some pi ∧
    index (VStr COL_ID) headers = Some ii ∧
    index (VStr COL_TOTAL) headers = Some ti ∧
    period_columns_from 0 [ni; pi; ii; ti] headers = Some periods ∧
    (read_existing_summary wb).2 = periods.
Proof.
  unfold read_existing_summary.
  destruct wb as [|[|headers data] broken];
    [by intros ?%not_elem_of_nil..|].
  destruct (index (VStr COL_NAME) headers) as [ni|] eqn:Hn;
    [|by intros ?%not_elem_of_nil].
  destruct (index (VStr COL_PHONE) headers) as [pi|] eqn:Hp;
    [|by intros ?%not_elem_of_nil].
  destruct (index (VStr COL_ID) headers) as [ii|] eqn:Hi;
    [|by intros ?%not_elem_of_nil].
  destruct (index (VStr COL_TOTAL) headers) as [ti|] eqn:Ht;
    [|by intros ?%not_elem_of_nil].
  destruct (period_columns_from 0 [ni; pi; ii; ti] headers) as [periods|]
    eqn:Hper; [|by intros ?%not_elem_of_nil].
  destruct broken; [by intros ?%not_elem_of_nil|].
  intros _. by exists headers, data, ni, pi, ii, ti, periods.
Qed.

(** X9: an empty score cell is recorded as the number 0.  When the last row
    read for a participant in the files of a period has an empty score
    cell, the score recorded after the file loop is the number 0; when the
    row the loader keeps for a participant has an empty cell in a period
    column, the loaded score is the number 0; and no recorded score is
    empty. *)
Theorem empty_score_recorded_as_zero fs files summary update_mode
    student_id period :
  (last_record
     (period_score_cells fs period
        (processed_files (run_state fs files summary update_mode)))
     student_id = Some VNone →
   score_entry (run_state fs files summary update_mode) student_id period
     = Some (VInt 0)) ∧
  (∀ wb row i,
     period ∈ (read_existing_summary wb).2 →
     index (VStr period) (file_headers wb) = Some i →
     loaded_row wb student_id = Some row →
     (i < length row)%nat →
     cell row i = VNone →
     (read_existing_summary wb).1 !! student_id
       ≫= (λ d, scores d !! period) = Some (VInt 0)) ∧
  score_entry (run_state fs files summary update_mode) student_id period
    ≠ Some VNone.
Proof.
  split_and!.
  - intros Hlast.
    assert (score_entry (run_state fs files summary update_mode)
              student_id period =
            match last_record
                    (period_scores fs period
                       (processed_files
                          (run_state fs files summary update_mode)))
                    student_id with
            | Some v => Some v
            | None =>
                (load_existing summary update_mode).1 !! student_id
                  ≫= λ d, scores d !! period
            end) as ->.
    { rewrite run_state_processed, run_state_eq. apply score_ingest_files. }
    by rewrite period_scores_of_cells, last_record_fmap, Hlast.
  - intros wb row i Hperiod Hidx Hrow Hlt Hcell.
    destruct (read_existing_summary_periods _ _ Hperiod)
      as (headers & data & ni & pi & ii & ti & periods
          & -> & Hn & Hp & Hi & Ht & Hper & Heq).
    rewrite Heq in Hperiod. cbn [file_headers] in Hidx.
    rewrite (loaded_score headers data ni pi ii ti periods student_id period i)
      by done.
    rewrite Hrow. simpl. unfold loaded_cell.
    apply Nat.ltb_lt in Hlt. by rewrite Hlt, Hcell.
  - rewrite run_state_eq, score_ingest_files.
    destruct (last_record _ student_id) as [v|] eqn:E.
    + apply last_record_elem in E. unfold period_scores in E.
      apply list_elem_of_bind in E as (file & E & _).
      apply file_scores_not_none in E. by intros [= ->].
    + unfold score_entry. simpl.
      destruct ((load_existing summary update_mode).1 !! student_id) as [d|]
        eqn:Hd; simpl; [|done].
      by eapply load_existing_not_none.
Qed.

Lemma empty_score_recorded_as_zero_witness :
  score_entry
    (run_state MoreSamples.fs_blank_score ["S3.xlsx"] None true) "100" "S3"
    = Some (VInt 0) ∧
  (read_existing_summary Samples.summary_extra).1 !! "None"
    ≫= (λ d, scores d !! "Seat") = Some (VInt 0).
Proof.
  split.
  - apply (proj1 (empty_score_recorded_as_zero MoreSamples.fs_blank_score
                    ["S3.xlsx"] None true "100" "S3")).
    vm_compute. reflexivity.
  - apply (proj1 (proj2 (empty_score_recorded_as_zero MoreSamples.fs_blank_score
                           ["S3.xlsx"] None true "None" "Seat"))
             Samples.summary_extra
             [VStr "E"; VNone; VNone; VInt 20; VNone; VInt 20] 4%nat).
    + apply (bool_decide_unpack _). vm_compute. exact I.
    + reflexivity.
    + vm_compute. reflexivity.
    + simpl. lia.
    + reflexivity.
Defined.

(** ** The period columns of the existing summary *)




